(** * The application-lifecycle coordinator of shell/browser/browser.cc

    A shallow embedding of [electron::Browser] and a verification of its
    quit / exit / shutdown protocol.

    The C++ object is a record of its data members.  Everything the class
    talks to (the window list, the browser main parts, the v8 promise behind
    the ready signal, the file system, the process itself) is a field of a
    [World] that the member functions thread through a small state monad
    whose second outcome is "the process called exit(code)".  Every call
    that leaves the class is appended to a [trace], so that "exactly one
    OnQuit round" and "the closure ran once" are statements about lists.

    Observers are external objects.  Their handlers are modelled as not
    calling back into the Browser: all a handler can do to the coordinator
    is write [true] through the [bool* prevent_default] it is handed. *)

From Stdlib Require Import ZArith List Bool String Lia PeanoNat.
Import ListNotations.
Local Open Scope Z_scope.

(** ** Values that cross the boundary of the class *)

(** A [base::OnceClosure] is known by its identity; running it is an event. *)
Definition OnceClosure := nat.

(** A [v8::Isolate*]. *)
Definition Isolate := nat.

(** A [NativeWindow*]. *)
Definition NativeWindow := nat.

(** A [scoped_refptr<LoginHandler>]. *)
Definition LoginHandler := nat.

(** A [base::DictionaryValue], as its key/value pairs. *)
Definition DictionaryValue := list (string * string).

(** [gin_helper::Arguments], reduced to what [Exit] reads from it: the next
    argument when it converts to an [int], nothing otherwise. *)
Definition Arguments := option Z.

(** [args->GetNext(&code)]: overwrites [code] only when the conversion
    succeeds. *)
Definition GetNext (args : Arguments) (code : Z) : Z :=
  match args with
  | Some c => c
  | None => code
  end.

(** ** Observers *)

(** Modelled from the spec: the [BrowserObserver] interface is declared in
    shell/browser/browser_observer.h.  An observer is known by its identity
    and by whether its handler for each of the three vetoable notifications
    sets the shared prevent flag ("any observer may set it true"). *)
Record BrowserObserver := mkObserver {
  observer_id : nat;
  prevents_before_quit : bool;
  prevents_will_quit : bool;
  prevents_open_file : bool
}.

(** The notifications of the [BrowserObserver] interface that browser.cc
    dispatches, with their by-value arguments. *)
Module Call.
Inductive t :=
| OnBeforeQuit
| OnWillQuit
| OnQuit
| OnWindowAllClosed
| OnOpenFile (file_path : string)
| OnOpenURL (url : string)
| OnActivate (has_visible_windows : bool)
| OnWillFinishLaunching
| OnFinishLaunching (launch_info : DictionaryValue)
| OnAccessibilitySupportChanged
| OnLogin (login_handler : LoginHandler) (request_details : DictionaryValue)
| OnPreMainMessageLoopRun
| OnNewWindowForTab.
End Call.

(** ** The ready signal *)

(** Modelled from the spec: [gin_helper::Promise<void>] is declared outside
    browser.cc.  It is a one-shot latch living in the v8 heap. *)
Inductive PromiseState := Pending | Resolved.

(** A promise is held, and handed out by [GetHandle], as its address in the
    heap of promises: the handle and [ready_promise_] alias one object. *)
Definition PromiseRef := nat.

(** ** Events *)

Inductive Event :=
| Notify (observer : nat) (call : Call.t)
| RunClosure (closure : OnceClosure)
| CloseAllWindows
| DestroyAllWindows
| CreateDirectory (path : string).

(** ** The state *)

(** The data members of [electron::Browser]. *)
Record Browser := mkBrowser {
  is_quiting_ : bool;
  is_exiting_ : bool;
  is_shutdown_ : bool;
  is_ready_ : bool;
  badge_count_ : Z;
  observers_ : list BrowserObserver;
  quit_main_message_loop_ : option OnceClosure;
  ready_promise_ : option PromiseRef
}.

(** The Browser together with its collaborators.
    - [window_list_empty]: what [WindowList::IsEmpty()] answers;
    - [exit_code_]: the exit-code slot of [AtomBrowserMainParts], absent
      until the main message loop runs;
    - [user_data]: what [PathService::Get(DIR_USER_DATA, _)] yields;
    - [promises]: the promises allocated so far;
    - [trace]: the calls made out of the class, oldest first. *)
Record World := mkWorld {
  browser : Browser;
  window_list_empty : bool;
  exit_code_ : option Z;
  user_data : option string;
  promises : list PromiseState;
  trace : list Event
}.

Definition with_browser (f : Browser -> Browser) (w : World) : World :=
  mkWorld (f (browser w)) (window_list_empty w) (exit_code_ w) (user_data w)
          (promises w) (trace w).

Definition with_trace (f : list Event -> list Event) (w : World) : World :=
  mkWorld (browser w) (window_list_empty w) (exit_code_ w) (user_data w)
          (promises w) (f (trace w)).

Definition with_promises (f : list PromiseState -> list PromiseState)
  (w : World) : World :=
  mkWorld (browser w) (window_list_empty w) (exit_code_ w) (user_data w)
          (f (promises w)) (trace w).

Definition with_exit_code (c : option Z) (w : World) : World :=
  mkWorld (browser w) (window_list_empty w) c (user_data w)
          (promises w) (trace w).

Definition with_window_list_empty (e : bool) (w : World) : World :=
  mkWorld (browser w) e (exit_code_ w) (user_data w) (promises w) (trace w).

Definition put_is_quiting (v : bool) (b : Browser) : Browser :=
  mkBrowser v (is_exiting_ b) (is_shutdown_ b) (is_ready_ b) (badge_count_ b)
            (observers_ b) (quit_main_message_loop_ b) (ready_promise_ b).

Definition put_is_exiting (v : bool) (b : Browser) : Browser :=
  mkBrowser (is_quiting_ b) v (is_shutdown_ b) (is_ready_ b) (badge_count_ b)
            (observers_ b) (quit_main_message_loop_ b) (ready_promise_ b).

Definition put_is_shutdown (v : bool) (b : Browser) : Browser :=
  mkBrowser (is_quiting_ b) (is_exiting_ b) v (is_ready_ b) (badge_count_ b)
            (observers_ b) (quit_main_message_loop_ b) (ready_promise_ b).

Definition put_is_ready (v : bool) (b : Browser) : Browser :=
  mkBrowser (is_quiting_ b) (is_exiting_ b) (is_shutdown_ b) v (badge_count_ b)
            (observers_ b) (quit_main_message_loop_ b) (ready_promise_ b).

Definition put_quit_main_message_loop (v : option OnceClosure) (b : Browser)
  : Browser :=
  mkBrowser (is_quiting_ b) (is_exiting_ b) (is_shutdown_ b) (is_ready_ b)
            (badge_count_ b) (observers_ b) v (ready_promise_ b).

Definition put_ready_promise (v : option PromiseRef) (b : Browser) : Browser :=
  mkBrowser (is_quiting_ b) (is_exiting_ b) (is_shutdown_ b) (is_ready_ b)
            (badge_count_ b) (observers_ b) (quit_main_message_loop_ b) v.

(** ** The monad: state, plus leaving through exit(code) *)

Inductive Result (A : Type) :=
| Returns (a : A) (w : World)
| Exits (code : Z) (w : World).
Arguments Returns {A} a w.
Arguments Exits {A} code w.

Definition M (A : Type) := World -> Result A.

Definition ret {A} (a : A) : M A := fun w => Returns a w.

Definition bind {A B} (m : M A) (k : A -> M B) : M B :=
  fun w => match m w with
           | Returns a w' => k a w'
           | Exits c w' => Exits c w'
           end.

Declare Scope browser_scope.
Delimit Scope browser_scope with browser.
Notation "x <- m ;; k" := (bind m (fun x => k))
  (at level 61, m at next level, right associativity) : browser_scope.
Notation "m ;; k" := (bind m (fun _ => k))
  (at level 61, right associativity) : browser_scope.
Local Open Scope browser_scope.

(** Read a data member. *)
Definition member {A} (f : Browser -> A) : M A :=
  fun w => Returns (f (browser w)) w.

(** Assign a data member. *)
Definition assign (f : Browser -> Browser) : M unit :=
  fun w => Returns tt (with_browser f w).

(** Record a call that leaves the class. *)
Definition emit (e : Event) : M unit :=
  fun w => Returns tt (with_trace (fun t => t ++ [e]) w).

(** [exit(code)] of <stdlib.h>: does not return. *)
Definition exit {A} (code : Z) : M A := fun w => Exits code w.

(** The world a computation ends in, whichever way it ends. *)
Definition final {A} (r : Result A) : World :=
  match r with
  | Returns _ w => w
  | Exits _ w => w
  end.

(** [for (BrowserObserver& observer : observers_) body(observer);] *)
Fixpoint for_each (observers : list BrowserObserver)
  (body : BrowserObserver -> M unit) : M unit :=
  match observers with
  | [] => ret tt
  | observer :: rest => body observer ;; for_each rest body
  end.

(** The same loop around a handler that is handed [&prevent_default]: the
    local is threaded through the iterations. *)
Fixpoint for_each_prevent (observers : list BrowserObserver)
  (body : BrowserObserver -> bool -> M bool) (prevent_default : bool) : M bool :=
  match observers with
  | [] => ret prevent_default
  | observer :: rest =>
      p <- body observer prevent_default ;;
      for_each_prevent rest body p
  end.

(** ** Collaborators *)

(** The handlers of an observer: each is recorded in the trace; the three
    that receive [bool* prevent_default] leave the flag alone or set it. *)
Module Observer.
Definition plain (c : Call.t) (o : BrowserObserver) : M unit :=
  emit (Notify (observer_id o) c).

Definition vetoable (c : Call.t) (sets : BrowserObserver -> bool)
  (o : BrowserObserver) (prevent_default : bool) : M bool :=
  emit (Notify (observer_id o) c) ;;
  ret (if sets o then true else prevent_default).

Definition OnBeforeQuit := vetoable Call.OnBeforeQuit prevents_before_quit.
Definition OnWillQuit := vetoable Call.OnWillQuit prevents_will_quit.
Definition OnQuit := plain Call.OnQuit.
Definition OnWindowAllClosed := plain Call.OnWindowAllClosed.
Definition OnOpenFile (file_path : string) :=
  vetoable (Call.OnOpenFile file_path) prevents_open_file.
Definition OnOpenURL (url : string) := plain (Call.OnOpenURL url).
Definition OnActivate (has_visible_windows : bool) :=
  plain (Call.OnActivate has_visible_windows).
Definition OnWillFinishLaunching := plain Call.OnWillFinishLaunching.
Definition OnFinishLaunching (launch_info : DictionaryValue) :=
  plain (Call.OnFinishLaunching launch_info).
Definition OnAccessibilitySupportChanged :=
  plain Call.OnAccessibilitySupportChanged.
Definition OnLogin (h : LoginHandler) (d : DictionaryValue) :=
  plain (Call.OnLogin h d).
Definition OnPreMainMessageLoopRun := plain Call.OnPreMainMessageLoopRun.
Definition OnNewWindowForTab := plain Call.OnNewWindowForTab.
End Observer.

(** Modelled from the spec: [WindowList] lives in shell/browser/window_list.
    [IsEmpty] reports whether any window remains; closing and destroying all
    windows are requests whose completion comes back later, as
    [OnWindowAllClosed] or [OnWindowCloseCancelled]. *)
Module WindowList.
Definition IsEmpty : M bool := fun w => Returns (window_list_empty w) w.
Definition CloseAllWindows : M unit := emit CloseAllWindows.
Definition DestroyAllWindows : M unit := emit DestroyAllWindows.
End WindowList.

(** Modelled from the spec: [AtomBrowserMainParts::SetExitCode] is defined in
    shell/browser/atom_browser_main_parts.  It stores the code and answers
    [true] when the main message loop is running, and answers [false] when
    there is no loop yet. *)
Module AtomBrowserMainParts.
Definition SetExitCode (code : Z) : M bool :=
  fun w => match exit_code_ w with
           | None => Returns false w
           | Some _ => Returns true (with_exit_code (Some code) w)
           end.
End AtomBrowserMainParts.

(** Modelled from the spec: the ready signal's primitive.  [Resolve] has an
    effect only on a pending promise; [GetHandle] hands out the promise. *)
Module Promise.
Fixpoint resolve_at (a : nat) (h : list PromiseState) : list PromiseState :=
  match h, a with
  | [], _ => []
  | _ :: rest, O => Resolved :: rest
  | p :: rest, S a' => p :: resolve_at a' rest
  end.

(** [std::make_unique<gin_helper::Promise<void>>(isolate)] *)
Definition make (isolate : Isolate) : M PromiseRef :=
  fun w => Returns (List.length (promises w))
                   (with_promises (fun h => h ++ [Pending]) w).

Definition Resolve (p : PromiseRef) : M unit :=
  fun w => Returns tt (with_promises (resolve_at p) w).

Definition GetHandle (p : PromiseRef) : M PromiseRef := ret p.
End Promise.

(** Whether the promise behind a handle is resolved in a given world. *)
Definition handle_resolved (w : World) (h : PromiseRef) : bool :=
  match nth_error (promises w) h with
  | Some Resolved => true
  | _ => false
  end.

(** [std::move(closure).Run()] *)
Definition Run (closure : OnceClosure) : M unit := emit (RunClosure closure).

(** [base::PathService::Get(DIR_USER_DATA, &user_data)] followed by
    [base::CreateDirectoryAndGetError(user_data, nullptr)]. *)
Definition EnsureUserDataDirectory : M unit :=
  fun w => match user_data w with
           | Some path => emit (CreateDirectory path) w
           | None => Returns tt w
           end.

(** ** The member functions of [electron::Browser] *)

(** [void Browser::Shutdown()] *)
Definition Shutdown : M unit :=
  is_shutdown <- member is_shutdown_ ;;
  if is_shutdown then ret tt
  else
    assign (put_is_shutdown true) ;;
    assign (put_is_quiting true) ;;
    observers <- member observers_ ;;
    for_each observers Observer.OnQuit ;;
    quit_main_message_loop <- member quit_main_message_loop_ ;;
    match quit_main_message_loop with
    | Some closure =>
        assign (put_quit_main_message_loop None) ;;
        Run closure
    | None =>
        (* There is no message loop available so we are in early stage. *)
        ret tt
    end.

(** [bool Browser::HandleBeforeQuit()] *)
Definition HandleBeforeQuit : M bool :=
  observers <- member observers_ ;;
  prevent_default <- for_each_prevent observers Observer.OnBeforeQuit false ;;
  ret (negb prevent_default).

(** [void Browser::NotifyAndShutdown()] *)
Definition NotifyAndShutdown : M unit :=
  is_shutdown <- member is_shutdown_ ;;
  if is_shutdown then ret tt
  else
    observers <- member observers_ ;;
    prevent_default <- for_each_prevent observers Observer.OnWillQuit false ;;
    if prevent_default then assign (put_is_quiting false)
    else Shutdown.

(** [void Browser::Quit()] *)
Definition Quit : M unit :=
  is_quiting <- member is_quiting_ ;;
  if is_quiting then ret tt
  else
    handled <- HandleBeforeQuit ;;
    assign (put_is_quiting handled) ;;
    is_quiting <- member is_quiting_ ;;
    if negb is_quiting then ret tt
    else
      empty <- WindowList.IsEmpty ;;
      if empty then NotifyAndShutdown
      else WindowList.CloseAllWindows.

(** [void Browser::Exit(gin_helper::Arguments* args)] *)
Definition Exit (args : Arguments) : M unit :=
  let code := 0 in
  let code := GetNext args code in
  set <- AtomBrowserMainParts.SetExitCode code ;;
  if negb set then
    (* Message loop is not ready, quit directly. *)
    exit code
  else
    (* Prepare to quit when all windows have been closed. *)
    assign (put_is_quiting true) ;;
    (* Remember this caller so that we don't emit unrelated events. *)
    assign (put_is_exiting true) ;;
    empty <- WindowList.IsEmpty ;;
    if empty then Shutdown
    else WindowList.DestroyAllWindows.

(** [int Browser::GetBadgeCount()] *)
Definition GetBadgeCount : M Z := member badge_count_.

(** [bool Browser::OpenFile(const std::string& file_path)] *)
Definition OpenFile (file_path : string) : M bool :=
  observers <- member observers_ ;;
  for_each_prevent observers (Observer.OnOpenFile file_path) false.

(** [void Browser::OpenURL(const std::string& url)] *)
Definition OpenURL (url : string) : M unit :=
  observers <- member observers_ ;;
  for_each observers (Observer.OnOpenURL url).

(** [void Browser::Activate(bool has_visible_windows)] *)
Definition Activate (has_visible_windows : bool) : M unit :=
  observers <- member observers_ ;;
  for_each observers (Observer.OnActivate has_visible_windows).

(** [void Browser::WillFinishLaunching()] *)
Definition WillFinishLaunching : M unit :=
  observers <- member observers_ ;;
  for_each observers Observer.OnWillFinishLaunching.

(** [void Browser::DidFinishLaunching(base::DictionaryValue launch_info)] *)
Definition DidFinishLaunching (launch_info : DictionaryValue) : M unit :=
  (* Make sure the userData directory is created. *)
  EnsureUserDataDirectory ;;
  assign (put_is_ready true) ;;
  ready_promise <- member ready_promise_ ;;
  match ready_promise with
  | Some p => Promise.Resolve p
  | None => ret tt
  end ;;
  observers <- member observers_ ;;
  for_each observers (Observer.OnFinishLaunching launch_info).

(** [v8::Local<v8::Value> Browser::WhenReady(v8::Isolate* isolate)] *)
Definition WhenReady (isolate : Isolate) : M PromiseRef :=
  ready_promise <- member ready_promise_ ;;
  match ready_promise with
  | None =>
      p <- Promise.make isolate ;;
      assign (put_ready_promise (Some p)) ;;
      is_ready <- member is_ready_ ;;
      (if is_ready then Promise.Resolve p else ret tt) ;;
      Promise.GetHandle p
  | Some p => Promise.GetHandle p
  end.

(** [void Browser::OnAccessibilitySupportChanged()] *)
Definition OnAccessibilitySupportChanged : M unit :=
  observers <- member observers_ ;;
  for_each observers Observer.OnAccessibilitySupportChanged.

(** [void Browser::RequestLogin(login_handler, request_details)] *)
Definition RequestLogin (login_handler : LoginHandler)
  (request_details : DictionaryValue) : M unit :=
  observers <- member observers_ ;;
  for_each observers (Observer.OnLogin login_handler request_details).

(** [void Browser::PreMainMessageLoopRun()] *)
Definition PreMainMessageLoopRun : M unit :=
  observers <- member observers_ ;;
  for_each observers Observer.OnPreMainMessageLoopRun.

(** [void Browser::SetMainMessageLoopQuitClosure(base::OnceClosure)] *)
Definition SetMainMessageLoopQuitClosure (quit_closure : OnceClosure) : M unit :=
  is_shutdown <- member is_shutdown_ ;;
  if is_shutdown then Run quit_closure
  else assign (put_quit_main_message_loop (Some quit_closure)).

(** [void Browser::OnWindowCloseCancelled(NativeWindow* window)] *)
Definition OnWindowCloseCancelled (window : NativeWindow) : M unit :=
  is_quiting <- member is_quiting_ ;;
  if is_quiting then
    (* Once a beforeunload handler has prevented the closing, we think the
       quit is cancelled too. *)
    assign (put_is_quiting false)
  else ret tt.

(** [void Browser::OnWindowAllClosed()] *)
Definition OnWindowAllClosed : M unit :=
  is_exiting <- member is_exiting_ ;;
  if is_exiting then Shutdown
  else
    is_quiting <- member is_quiting_ ;;
    if is_quiting then NotifyAndShutdown
    else
      observers <- member observers_ ;;
      for_each observers Observer.OnWindowAllClosed.

(** [void Browser::NewWindowForTab()], compiled on macOS only. *)
Definition NewWindowForTab : M unit :=
  observers <- member observers_ ;;
  for_each observers Observer.OnNewWindowForTab.

(** ** Executions *)

(** What can happen to a Browser: a call of one of its member functions, or
    a change in its surroundings (the window list gaining or losing its last
    window, the main message loop starting to run with its result slot). *)
Inductive Op :=
| OpQuit
| OpExit (args : Arguments)
| OpShutdown
| OpGetBadgeCount
| OpOpenFile (file_path : string)
| OpOpenURL (url : string)
| OpActivate (has_visible_windows : bool)
| OpWillFinishLaunching
| OpDidFinishLaunching (launch_info : DictionaryValue)
| OpWhenReady (isolate : Isolate)
| OpOnAccessibilitySupportChanged
| OpRequestLogin (login_handler : LoginHandler) (request_details : DictionaryValue)
| OpPreMainMessageLoopRun
| OpSetMainMessageLoopQuitClosure (quit_closure : OnceClosure)
| OpOnWindowCloseCancelled (window : NativeWindow)
| OpOnWindowAllClosed
| OpNewWindowForTab
| EnvWindowList (empty : bool)
| EnvMainMessageLoopRun (result_code : Z).

(** Drop the value a call returns. *)
Definition void {A} (m : M A) : M unit := m ;; ret tt.

Definition step (op : Op) : M unit :=
  match op with
  | OpQuit => Quit
  | OpExit args => Exit args
  | OpShutdown => Shutdown
  | OpGetBadgeCount => void GetBadgeCount
  | OpOpenFile file_path => void (OpenFile file_path)
  | OpOpenURL url => OpenURL url
  | OpActivate has_visible_windows => Activate has_visible_windows
  | OpWillFinishLaunching => WillFinishLaunching
  | OpDidFinishLaunching launch_info => DidFinishLaunching launch_info
  | OpWhenReady isolate => void (WhenReady isolate)
  | OpOnAccessibilitySupportChanged => OnAccessibilitySupportChanged
  | OpRequestLogin h d => RequestLogin h d
  | OpPreMainMessageLoopRun => PreMainMessageLoopRun
  | OpSetMainMessageLoopQuitClosure c => SetMainMessageLoopQuitClosure c
  | OpOnWindowCloseCancelled window => OnWindowCloseCancelled window
  | OpOnWindowAllClosed => OnWindowAllClosed
  | OpNewWindowForTab => NewWindowForTab
  | EnvWindowList empty =>
      fun w => Returns tt (with_window_list_empty empty w)
  | EnvMainMessageLoopRun result_code =>
      fun w => Returns tt (with_exit_code (Some result_code) w)
  end.

(** A sequence of operations; nothing runs after the process has exited. *)
Fixpoint run (ops : list Op) : M unit :=
  match ops with
  | [] => ret tt
  | op :: rest => step op ;; run rest
  end.

(** [n] calls in a row. *)
Fixpoint times (n : nat) (m : M unit) : M unit :=
  match n with
  | O => ret tt
  | S n' => m ;; times n' m
  end.

(** A freshly constructed Browser with the given observers registered, in a
    world with nothing allocated and nothing observed yet. *)
Definition new_browser (observers : list BrowserObserver) : Browser :=
  mkBrowser false false false false 0 observers None None.

Definition initial (observers : list BrowserObserver) (windows_empty : bool)
  (user_data_dir : option string) : World :=
  mkWorld (new_browser observers) windows_empty None user_data_dir [] [].

(** The worlds an execution can be in. *)
Definition reachable (w : World) : Prop :=
  exists observers windows_empty user_data_dir ops,
    run ops (initial observers windows_empty user_data_dir) = Returns tt w.

(** ** Reading a trace *)

Definition is_quit_notification (e : Event) : bool :=
  match e with
  | Notify _ Call.OnQuit => true
  | _ => false
  end.

(** The OnQuit notifications of a trace, in order. *)
Definition quit_notifications (t : list Event) : list Event :=
  filter is_quit_notification t.

Definition is_run (e : Event) : bool :=
  match e with
  | RunClosure _ => true
  | _ => false
  end.

(** How many closures a trace runs. *)
Definition runs (t : list Event) : nat := List.length (filter is_run t).

Definition is_run_of (closure : OnceClosure) (e : Event) : bool :=
  match e with
  | RunClosure c => Nat.eqb c closure
  | _ => false
  end.

(** How many times a trace runs one closure. *)
Definition runs_of (closure : OnceClosure) (t : list Event) : nat :=
  List.length (filter (is_run_of closure) t).

(** One notification round: every observer once, in registration order. *)
Definition round (c : Call.t) (observers : list BrowserObserver) : list Event :=
  map (fun o => Notify (observer_id o) c) observers.

(** What running the stored closure, if any, adds to the trace. *)
Definition closure_run (q : option OnceClosure) : list Event :=
  match q with
  | Some closure => [RunClosure closure]
  | None => []
  end.

(** Append to the trace. *)
Definition log (events : list Event) (w : World) : World :=
  with_trace (fun t => t ++ events) w.

(** The world [Shutdown] leaves when it is not a no-op. *)
Definition shut_down (w : World) : World :=
  log (round Call.OnQuit (observers_ (browser w))
       ++ closure_run (quit_main_message_loop_ (browser w)))
      (with_browser
         (fun b => put_quit_main_message_loop None
                     (put_is_quiting true (put_is_shutdown true b))) w).

(** A member function that only loops over the observers. *)
Definition broadcast (c : Call.t) : M unit :=
  observers <- member observers_ ;;
  for_each observers (Observer.plain c).

(** ** Invariants of executions *)

(** In every world of an execution the observers are the registered ones, and
    the trace holds one OnQuit round if the Browser is shut down and none
    otherwise. *)
Definition quit_round_invariant (observers : list BrowserObserver) (w : World)
  : Prop :=
  observers_ (browser w) = observers
  /\ quit_notifications (trace w)
     = if is_shutdown_ (browser w) then round Call.OnQuit observers else [].

(** ** Sample data *)

(** Two observers; the second vetoes will-quit. *)
Definition two_observers : list BrowserObserver :=
  [mkObserver 1 false false false; mkObserver 2 false true false].

(** A Browser on which [Exit] was called while the main message loop was
    running and a window was open: the windows are being destroyed. *)
Definition exit_in_progress : World :=
  mkWorld (mkBrowser true true false false 0 two_observers None None)
          false (Some 3) None [] [DestroyAllWindows].

(** A Browser right after its first [Shutdown], called with nothing else
    having happened. *)
Definition just_shut_down : World :=
  mkWorld (mkBrowser true false true false 0 two_observers None None)
          true None None []
          [Notify 1 Call.OnQuit; Notify 2 Call.OnQuit].

Definition is_cancel (op : Op) : bool :=
  match op with
  | OpOnWindowCloseCancelled _ => true
  | _ => false
  end.

Definition is_supply (op : Op) : bool :=
  match op with
  | OpSetMainMessageLoopQuitClosure _ => true
  | _ => false
  end.

(** What an execution that started at trace [base] has done with a closure
    it was handed: run it, once, in a Browser that is shut down; or kept it
    in [quit_main_message_loop_], not run, in a Browser that is not. *)
Definition ran_or_stored (closure : OnceClosure) (base : list Event)
  (w : World) : Prop :=
  exists events,
    trace w = base ++ events
    /\ ((runs_of closure events = 1%nat
         /\ is_shutdown_ (browser w) = true)
        \/ (runs_of closure events = 0%nat
            /\ quit_main_message_loop_ (browser w) = Some closure
            /\ is_shutdown_ (browser w) = false)).

(** The promise behind [ready_promise_] is allocated, and resolved once the
    Browser is ready. *)
Definition ready_promise_invariant (w : World) : Prop :=
  forall p,
    ready_promise_ (browser w) = Some p ->
    (p < List.length (promises w))%nat
    /\ (is_ready_ (browser w) = true ->
        nth_error (promises w) p = Some Resolved).

(** ** Further readings of a trace and of an execution *)

Definition is_will_quit_notification (e : Event) : bool :=
  match e with
  | Notify _ Call.OnWillQuit => true
  | _ => false
  end.

(** The OnWillQuit notifications of a trace, in order. *)
Definition will_quit_notifications (t : list Event) : list Event :=
  filter is_will_quit_notification t.

Definition is_supply_of (closure : OnceClosure) (op : Op) : bool :=
  match op with
  | OpSetMainMessageLoopQuitClosure c => Nat.eqb c closure
  | _ => false
  end.

(** How many times a sequence of operations supplies one closure. *)
Definition supplies (closure : OnceClosure) (ops : list Op) : nat :=
  List.length (filter (is_supply_of closure) ops).

(** 1 when the closure sits in [quit_main_message_loop_], 0 otherwise. *)
Definition pending (closure : OnceClosure) (w : World) : nat :=
  match quit_main_message_loop_ (browser w) with
  | Some c => if Nat.eqb c closure then 1 else 0
  | None => 0
  end.

(** No closure has run while the Browser is not shut down, and none is left
    stored once it is. *)
Definition closure_invariant (w : World) : Prop :=
  (is_shutdown_ (browser w) = false -> runs (trace w) = 0%nat)
  /\ (is_shutdown_ (browser w) = true ->
      quit_main_message_loop_ (browser w) = None).

(** The Browser allocates at most one promise, the one [ready_promise_]
    holds, and it is resolved exactly when the Browser is ready. *)
Definition single_promise_invariant (w : World) : Prop :=
  (promises w = [] /\ ready_promise_ (browser w) = None)
  \/ (promises w = [if is_ready_ (browser w) then Resolved else Pending]
      /\ ready_promise_ (browser w) = Some 0%nat).

(** ** Application name and version *)

(** The free functions of shell/common/application_info that [GetVersion],
    [SetVersion], [GetName] and [SetName] call, over whatever state they
    keep. *)
Class ApplicationInfo (S : Type) := {
  GetOverriddenApplicationName : S -> string;
  OverrideApplicationName : string -> S -> S;
  GetExecutableFileProductName : S -> string;
  GetOverriddenApplicationVersion : S -> string;
  OverrideApplicationVersion : string -> S -> S;
  GetExecutableFileVersion : S -> string
}.

(** What is assumed of them: an override is read back as written, and
    writing one changes nothing else that is read. *)
Class ApplicationInfoLaws (S : Type) {info : ApplicationInfo S} : Prop := {
  name_overridden : forall name s,
    GetOverriddenApplicationName (OverrideApplicationName name s) = name;
  version_overridden : forall version s,
    GetOverriddenApplicationVersion (OverrideApplicationVersion version s)
    = version;
  name_keeps_product_name : forall name s,
    GetExecutableFileProductName (OverrideApplicationName name s)
    = GetExecutableFileProductName s;
  name_keeps_version : forall name s,
    GetOverriddenApplicationVersion (OverrideApplicationName name s)
    = GetOverriddenApplicationVersion s;
  name_keeps_file_version : forall name s,
    GetExecutableFileVersion (OverrideApplicationName name s)
    = GetExecutableFileVersion s;
  version_keeps_file_version : forall version s,
    GetExecutableFileVersion (OverrideApplicationVersion version s)
    = GetExecutableFileVersion s;
  version_keeps_name : forall version s,
    GetOverriddenApplicationName (OverrideApplicationVersion version s)
    = GetOverriddenApplicationName s;
  version_keeps_product_name : forall version s,
    GetExecutableFileProductName (OverrideApplicationVersion version s)
    = GetExecutableFileProductName s
}.

(** [std::string::empty()] *)
Definition empty (s : string) : bool :=
  match s with
  | EmptyString => true
  | String _ _ => false
  end.

(** [std::string Browser::GetVersion() const] *)
Definition GetVersion {S} {info : ApplicationInfo S} (s : S) : string :=
  let ret := GetOverriddenApplicationVersion s in
  if empty ret then GetExecutableFileVersion s else ret.

(** [void Browser::SetVersion(const std::string& version)] *)
Definition SetVersion {S} {info : ApplicationInfo S} (version : string)
  (s : S) : S :=
  OverrideApplicationVersion version s.

(** [std::string Browser::GetName() const] *)
Definition GetName {S} {info : ApplicationInfo S} (s : S) : string :=
  let ret := GetOverriddenApplicationName s in
  if empty ret then GetExecutableFileProductName s else ret.

(** [void Browser::SetName(const std::string& name)] *)
Definition SetName {S} {info : ApplicationInfo S} (name : string) (s : S)
  : S :=
  OverrideApplicationName name s.

(** One state those functions can keep: the two overrides, beside what the
    executable file says. *)
Record Overrides := mkOverrides {
  overridden_application_name : string;
  overridden_application_version : string;
  executable_file_product_name : string;
  executable_file_version : string
}.

#[export] Instance Overrides_info : ApplicationInfo Overrides := {
  GetOverriddenApplicationName := overridden_application_name;
  OverrideApplicationName name s :=
    mkOverrides name (overridden_application_version s)
                (executable_file_product_name s) (executable_file_version s);
  GetExecutableFileProductName := executable_file_product_name;
  GetOverriddenApplicationVersion := overridden_application_version;
  OverrideApplicationVersion version s :=
    mkOverrides (overridden_application_name s) version
                (executable_file_product_name s) (executable_file_version s);
  GetExecutableFileVersion := executable_file_version
}.

(** * Proofs *)

(** ** The loops *)

Ltac world w := destruct w as [[? ? ? ? ? ? ? ?] ? ? ? ? ?].

Lemma log_nil w : log [] w = w.
Proof. world w. unfold log, with_trace. simpl. now rewrite app_nil_r. Qed.

Lemma log_log a b w : log a (log b w) = log (b ++ a) w.
Proof. unfold log, with_trace. simpl. now rewrite app_assoc. Qed.

Lemma for_each_plain c observers w :
  for_each observers (Observer.plain c) w
  = Returns tt (log (round c observers) w).
Proof.
  revert w. induction observers as [|o rest IH]; intros w.
  - simpl. unfold ret. now rewrite log_nil.
  - simpl. unfold bind, Observer.plain, emit at 1.
    rewrite IH. fold (log [Notify (observer_id o) c] w).
    now rewrite log_log.
Qed.

Lemma for_each_vetoable c sets observers prevent_default w :
  for_each_prevent observers (Observer.vetoable c sets) prevent_default w
  = Returns (prevent_default || existsb sets observers)
            (log (round c observers) w).
Proof.
  revert prevent_default w.
  induction observers as [|o rest IH]; intros p w.
  - simpl. unfold ret. now rewrite log_nil, orb_false_r.
  - simpl. unfold bind, Observer.vetoable at 1, bind, emit, ret.
    rewrite IH. fold (log [Notify (observer_id o) c] w).
    rewrite log_log. simpl. f_equal.
    destruct (sets o), p; reflexivity.
Qed.

(** ** Each member function as an equation on worlds *)

Lemma Shutdown_eq w :
  Shutdown w
  = Returns tt (if is_shutdown_ (browser w) then w else shut_down w).
Proof.
  unfold Shutdown, bind, member.
  destruct (is_shutdown_ (browser w)) eqn:Hs; [reflexivity|].
  unfold assign, Observer.OnQuit. rewrite for_each_plain.
  world w. simpl in *. unfold shut_down. simpl.
  destruct quit_main_message_loop_0; simpl.
  - unfold Run, emit, log, with_trace, with_browser. simpl.
    now rewrite <- app_assoc.
  - unfold ret, log, with_trace, with_browser. simpl.
    now rewrite app_nil_r.
Qed.

Lemma HandleBeforeQuit_eq w :
  HandleBeforeQuit w
  = Returns (negb (existsb prevents_before_quit (observers_ (browser w))))
            (log (round Call.OnBeforeQuit (observers_ (browser w))) w).
Proof.
  unfold HandleBeforeQuit, bind, member, Observer.OnBeforeQuit.
  now rewrite for_each_vetoable.
Qed.

Lemma NotifyAndShutdown_eq w :
  NotifyAndShutdown w
  = Returns tt
      (if is_shutdown_ (browser w) then w
       else if existsb prevents_will_quit (observers_ (browser w))
            then with_browser (put_is_quiting false)
                   (log (round Call.OnWillQuit (observers_ (browser w))) w)
            else shut_down
                   (log (round Call.OnWillQuit (observers_ (browser w))) w)).
Proof.
  unfold NotifyAndShutdown, bind, member, Observer.OnWillQuit.
  destruct (is_shutdown_ (browser w)) eqn:Hs; [reflexivity|].
  rewrite for_each_vetoable. simpl.
  destruct (existsb _ _); [reflexivity|].
  rewrite Shutdown_eq. simpl. now rewrite Hs.
Qed.

Lemma Quit_eq w :
  Quit w
  = Returns tt
      (if is_quiting_ (browser w) then w
       else
         let w1 := log (round Call.OnBeforeQuit (observers_ (browser w))) w in
         if existsb prevents_before_quit (observers_ (browser w))
         then with_browser (put_is_quiting false) w1
         else
           let w2 := with_browser (put_is_quiting true) w1 in
           if window_list_empty w
           then final (NotifyAndShutdown w2)
           else log [CloseAllWindows] w2).
Proof.
  unfold Quit, bind at 1. unfold member at 1.
  destruct (is_quiting_ (browser w)) eqn:Hq; [reflexivity|].
  unfold bind at 1. rewrite HandleBeforeQuit_eq.
  destruct (existsb _ _) eqn:Hv; simpl.
  - reflexivity.
  - unfold bind, WindowList.IsEmpty. simpl.
    destruct (window_list_empty w); [|reflexivity].
    now rewrite NotifyAndShutdown_eq.
Qed.

Lemma Exit_eq args w :
  Exit args w
  = match exit_code_ w with
    | None => Exits (GetNext args 0) w
    | Some _ =>
        let w1 := with_browser
                    (fun b => put_is_exiting true (put_is_quiting true b))
                    (with_exit_code (Some (GetNext args 0)) w) in
        Returns tt (if window_list_empty w
                    then final (Shutdown w1)
                    else log [DestroyAllWindows] w1)
    end.
Proof.
  unfold Exit, bind at 1. unfold AtomBrowserMainParts.SetExitCode.
  destruct (exit_code_ w); simpl; [|reflexivity].
  unfold bind, assign, WindowList.IsEmpty. simpl.
  destruct (window_list_empty w); [|reflexivity].
  rewrite !Shutdown_eq. reflexivity.
Qed.

Lemma OnWindowCloseCancelled_eq window w :
  OnWindowCloseCancelled window w
  = Returns tt (if is_quiting_ (browser w)
                then with_browser (put_is_quiting false) w else w).
Proof.
  unfold OnWindowCloseCancelled, bind, member.
  now destruct (is_quiting_ (browser w)).
Qed.

Lemma OnWindowAllClosed_eq w :
  OnWindowAllClosed w
  = if is_exiting_ (browser w) then Shutdown w
    else if is_quiting_ (browser w) then NotifyAndShutdown w
    else Returns tt
           (log (round Call.OnWindowAllClosed (observers_ (browser w))) w).
Proof.
  unfold OnWindowAllClosed, bind, member.
  destruct (is_exiting_ (browser w)); [reflexivity|].
  destruct (is_quiting_ (browser w)); [reflexivity|].
  unfold Observer.OnWindowAllClosed. now rewrite for_each_plain.
Qed.

Lemma SetMainMessageLoopQuitClosure_eq c w :
  SetMainMessageLoopQuitClosure c w
  = Returns tt (if is_shutdown_ (browser w) then log [RunClosure c] w
                else with_browser (put_quit_main_message_loop (Some c)) w).
Proof.
  unfold SetMainMessageLoopQuitClosure, bind, member.
  now destruct (is_shutdown_ (browser w)).
Qed.

Lemma OpenFile_eq file_path w :
  OpenFile file_path w
  = Returns (existsb prevents_open_file (observers_ (browser w)))
      (log (round (Call.OnOpenFile file_path) (observers_ (browser w))) w).
Proof.
  unfold OpenFile, bind, member, Observer.OnOpenFile.
  now rewrite for_each_vetoable.
Qed.

Lemma broadcast_eq c w :
  broadcast c w = Returns tt (log (round c (observers_ (browser w))) w).
Proof. unfold broadcast, bind, member. now rewrite for_each_plain. Qed.

Lemma DidFinishLaunching_eq launch_info w :
  DidFinishLaunching launch_info w
  = Returns tt
      (log (match user_data w with
            | Some path => [CreateDirectory path]
            | None => []
            end
            ++ round (Call.OnFinishLaunching launch_info)
                 (observers_ (browser w)))
         (with_promises
            (match ready_promise_ (browser w) with
             | Some p => Promise.resolve_at p
             | None => fun h => h
             end)
            (with_browser (put_is_ready true) w))).
Proof.
  unfold DidFinishLaunching, bind at 1. unfold EnsureUserDataDirectory.
  world w. simpl.
  destruct user_data0, ready_promise_0; simpl;
    unfold bind, assign, member, Promise.Resolve, ret, emit,
      Observer.OnFinishLaunching; simpl;
    rewrite for_each_plain; unfold log, with_trace, with_promises,
      with_browser; simpl; rewrite <- ?app_assoc; reflexivity.
Qed.

Lemma WhenReady_eq isolate w :
  WhenReady isolate w
  = match ready_promise_ (browser w) with
    | Some p => Returns p w
    | None =>
        let p := List.length (promises w) in
        Returns p
          (with_promises
             (fun h => if is_ready_ (browser w)
                       then Promise.resolve_at p (h ++ [Pending])
                       else h ++ [Pending])
             (with_browser (put_ready_promise (Some p)) w))
    end.
Proof.
  unfold WhenReady, bind, member. world w. simpl.
  destruct ready_promise_0; [reflexivity|].
  unfold Promise.make, assign, Promise.GetHandle, Promise.Resolve, ret. simpl.
  now destruct is_ready_0.
Qed.

Lemma OpenURL_eq url w :
  OpenURL url w
  = Returns tt (log (round (Call.OnOpenURL url) (observers_ (browser w))) w).
Proof. exact (broadcast_eq _ w). Qed.

Lemma Activate_eq v w :
  Activate v w
  = Returns tt (log (round (Call.OnActivate v) (observers_ (browser w))) w).
Proof. exact (broadcast_eq _ w). Qed.

Lemma WillFinishLaunching_eq w :
  WillFinishLaunching w
  = Returns tt
      (log (round Call.OnWillFinishLaunching (observers_ (browser w))) w).
Proof. exact (broadcast_eq _ w). Qed.

Lemma OnAccessibilitySupportChanged_eq w :
  OnAccessibilitySupportChanged w
  = Returns tt
      (log (round Call.OnAccessibilitySupportChanged (observers_ (browser w)))
         w).
Proof. exact (broadcast_eq _ w). Qed.

Lemma RequestLogin_eq h d w :
  RequestLogin h d w
  = Returns tt (log (round (Call.OnLogin h d) (observers_ (browser w))) w).
Proof. exact (broadcast_eq _ w). Qed.

Lemma PreMainMessageLoopRun_eq w :
  PreMainMessageLoopRun w
  = Returns tt
      (log (round Call.OnPreMainMessageLoopRun (observers_ (browser w))) w).
Proof. exact (broadcast_eq _ w). Qed.

Lemma NewWindowForTab_eq w :
  NewWindowForTab w
  = Returns tt (log (round Call.OnNewWindowForTab (observers_ (browser w))) w).
Proof. exact (broadcast_eq _ w). Qed.

(** Unfold one step into its equation. *)
Ltac step_eq :=
  unfold step, void, bind, GetBadgeCount, member, ret;
  rewrite ?Quit_eq, ?Exit_eq, ?OnWindowAllClosed_eq, ?Shutdown_eq,
    ?NotifyAndShutdown_eq, ?OpenFile_eq, ?OpenURL_eq, ?Activate_eq,
    ?WillFinishLaunching_eq, ?DidFinishLaunching_eq, ?WhenReady_eq,
    ?OnAccessibilitySupportChanged_eq, ?RequestLogin_eq,
    ?PreMainMessageLoopRun_eq, ?SetMainMessageLoopQuitClosure_eq,
    ?OnWindowCloseCancelled_eq, ?NewWindowForTab_eq;
  cbv zeta; rewrite ?Shutdown_eq, ?NotifyAndShutdown_eq; cbn [final].

(** Split on every condition the goal branches on. *)
Ltac branches :=
  repeat match goal with
    | |- context [if ?b then _ else _] => destruct b eqn:?
    | |- context [match ?o with Some _ => _ | None => _ end] =>
        destruct o eqn:?
    end.

(** ** Reading rounds out of a trace *)

Lemma quit_notifications_app a b :
  quit_notifications (a ++ b) = quit_notifications a ++ quit_notifications b.
Proof. apply filter_app. Qed.

Lemma quit_notifications_quit_round observers :
  quit_notifications (round Call.OnQuit observers)
  = round Call.OnQuit observers.
Proof.
  induction observers as [|o rest IH]; [reflexivity|].
  unfold quit_notifications, round in *. simpl. now rewrite IH.
Qed.

Lemma quit_notifications_other_round c observers :
  c <> Call.OnQuit -> quit_notifications (round c observers) = [].
Proof.
  intros Hc. induction observers as [|o rest IH]; [reflexivity|].
  unfold quit_notifications, round in *. simpl.
  destruct c; try contradiction; exact IH.
Qed.

Lemma quit_notifications_closure_run q :
  quit_notifications (closure_run q) = [].
Proof. now destruct q. Qed.

Lemma runs_app a b : runs (a ++ b) = (runs a + runs b)%nat.
Proof. unfold runs. now rewrite filter_app, length_app. Qed.

Lemma runs_round c observers : runs (round c observers) = 0%nat.
Proof. induction observers; simpl; auto. Qed.

Lemma runs_closure_run q : (runs (closure_run q) <= 1)%nat.
Proof. destruct q; simpl; unfold runs; simpl; lia. Qed.

(** ** The OnQuit round of an execution *)

Ltac trace_simpl :=
  simpl; unfold quit_notifications in *;
  rewrite ?filter_app; simpl;
  fold quit_notifications in *;
  rewrite ?quit_notifications_quit_round, ?quit_notifications_closure_run;
  rewrite ?quit_notifications_other_round by discriminate;
  rewrite ?app_nil_r.

Lemma quit_round_invariant_step observers op w w' :
  quit_round_invariant observers w ->
  step op w = Returns tt w' ->
  quit_round_invariant observers w'.
Proof.
  intros [Hobs Hq]. destruct op; step_eq; branches; intros H;
    inversion H; subst w'; clear H; split; trace_simpl;
    try assumption;
    repeat match goal with
      | E : is_shutdown_ _ = _ |- _ => simpl in E; rewrite E in *
      end;
    try rewrite Hq; try rewrite Hobs; try reflexivity; try discriminate.
Qed.

Lemma quit_round_invariant_run observers ops : forall w w',
  quit_round_invariant observers w ->
  run ops w = Returns tt w' ->
  quit_round_invariant observers w'.
Proof.
  induction ops as [|op rest IH]; intros w w' Hinv Hrun.
  - inversion Hrun. now subst.
  - simpl in Hrun. unfold bind in Hrun.
    destruct (step op w) as [[] w1|] eqn:Hstep; [|discriminate].
    eauto using quit_round_invariant_step.
Qed.

Lemma quit_round_invariant_initial observers e u :
  quit_round_invariant observers (initial observers e u).
Proof. now split. Qed.

Lemma reachable_quit_round w :
  reachable w ->
  quit_round_invariant (observers_ (browser w)) w.
Proof.
  intros (observers & e & u & ops & Hrun).
  pose proof (quit_round_invariant_run _ _ _ _
                (quit_round_invariant_initial observers e u) Hrun) as Hinv.
  destruct Hinv as [Hobs Hq]. rewrite Hobs. now split.
Qed.

(** ** Shutdown *)

Lemma Shutdown_noop w :
  is_shutdown_ (browser w) = true -> Shutdown w = Returns tt w.
Proof. intros H. now rewrite Shutdown_eq, H. Qed.

Lemma Shutdown_shuts_down w w' :
  Shutdown w = Returns tt w' -> is_shutdown_ (browser w') = true.
Proof.
  rewrite Shutdown_eq. intros H. inversion H.
  destruct (is_shutdown_ (browser w)) eqn:Hs; [assumption|reflexivity].
Qed.

Lemma times_Shutdown_noop n w :
  is_shutdown_ (browser w) = true -> times n Shutdown w = Returns tt w.
Proof.
  intros H. induction n as [|n IH]; [reflexivity|].
  simpl. unfold bind. now rewrite Shutdown_noop.
Qed.

(** Idempotence in any world, reachable or not. *)
Lemma times_Shutdown n w :
  (0 < n)%nat -> times n Shutdown w = Shutdown w.
Proof.
  destruct n as [|n]; [lia|intros _].
  simpl. unfold bind. destruct (Shutdown w) as [[] w1|] eqn:H.
  - apply times_Shutdown_noop. eauto using Shutdown_shuts_down.
  - rewrite Shutdown_eq in H. discriminate.
Qed.

(** C1. Calling [Shutdown] N > 1 times in a row is calling it once, in any
    world: the calls end in the same world.  Together they add to the trace
    one OnQuit round, addressed to every registered observer in order, and
    at most one closure run (nothing at all when the Browser was shut down
    already); any further call changes nothing.  In a world of an execution,
    the whole trace then holds exactly one OnQuit round. *)
Theorem Shutdown_idempotent w N :
  (1 < N)%nat ->
  times N Shutdown w = Shutdown w
  /\ exists w' events,
      Shutdown w = Returns tt w'
      /\ is_shutdown_ (browser w') = true
      /\ Shutdown w' = Returns tt w'
      /\ trace w' = trace w ++ events
      /\ (runs events <= 1)%nat
      /\ quit_notifications events
         = (if is_shutdown_ (browser w) then []
            else round Call.OnQuit (observers_ (browser w)))
      /\ (reachable w ->
          quit_notifications (trace w')
          = round Call.OnQuit (observers_ (browser w'))).
Proof.
  intros HN. split; [apply times_Shutdown; lia|].
  rewrite Shutdown_eq.
  destruct (is_shutdown_ (browser w)) eqn:Hs.
  - exists w, []. rewrite app_nil_r.
    repeat (split; [first [reflexivity | assumption
                          | now apply Shutdown_noop
                          | unfold runs; simpl; lia]|]).
    intros Hreach. destruct (reachable_quit_round w Hreach) as [_ Hq].
    now rewrite Hq, Hs.
  - eexists. eexists. split; [reflexivity|].
    split; [reflexivity|]. split; [now apply Shutdown_noop|].
    split; [reflexivity|].
    split; [rewrite runs_app, runs_round; apply runs_closure_run|].
    split; [now trace_simpl|].
    intros Hreach. destruct (reachable_quit_round w Hreach) as [_ Hq].
    trace_simpl. now rewrite Hq, Hs.
Qed.

Lemma Shutdown_idempotent_witness :
  let w := with_browser (put_quit_main_message_loop (Some 7%nat))
             (initial two_observers true None) in
  (1 < 3)%nat
  /\ reachable w
  /\ times 3 Shutdown w = Shutdown w
  /\ exists w' events,
      Shutdown w = Returns tt w'
      /\ is_shutdown_ (browser w') = true
      /\ Shutdown w' = Returns tt w'
      /\ trace w' = trace w ++ events
      /\ (runs events <= 1)%nat
      /\ quit_notifications events
         = (if is_shutdown_ (browser w) then []
            else round Call.OnQuit (observers_ (browser w)))
      /\ quit_notifications (trace w')
         = round Call.OnQuit (observers_ (browser w')).
Proof.
  intros w.
  assert (HN : (1 < 3)%nat) by lia.
  assert (Hreach : reachable w).
  { exists two_observers, true, None,
      [OpSetMainMessageLoopQuitClosure 7%nat]. reflexivity. }
  destruct (Shutdown_idempotent w 3 HN)
    as (Htimes & w' & events & H1 & H2 & H3 & H4 & H5 & H6 & H7).
  split; [exact HN|]. split; [exact Hreach|]. split; [exact Htimes|].
  exists w', events.
  repeat (split; [assumption|]). exact (H7 Hreach).
Defined.

(** Three calls on a fresh Browser holding a closure: one OnQuit round, one
    closure run. *)
Example Shutdown_three_times :
  let w := with_browser (put_quit_main_message_loop (Some 7%nat))
             (initial two_observers true None) in
  exists w',
    times 3 Shutdown w = Returns tt w'
    /\ trace w' = [Notify 1 Call.OnQuit; Notify 2 Call.OnQuit;
                   RunClosure 7%nat]
    /\ quit_main_message_loop_ (browser w') = None.
Proof. eexists. repeat split. Qed.

(** ** Exit *)

(** Once the main message loop runs and [Exit] has been called, every
    operation returns, and leaves both facts in place. *)
Lemma exiting_step op w :
  is_exiting_ (browser w) = true -> exit_code_ w <> None ->
  exists w', step op w = Returns tt w'
             /\ is_exiting_ (browser w') = true /\ exit_code_ w' <> None.
Proof.
  intros He Hc. destruct op; step_eq; branches;
    try (eexists; split; [reflexivity|]; simpl; split;
         [assumption || reflexivity | assumption || discriminate]);
    congruence.
Qed.

Lemma exiting_run ops : forall w,
  is_exiting_ (browser w) = true -> exit_code_ w <> None ->
  exists w', run ops w = Returns tt w'
             /\ is_exiting_ (browser w') = true /\ exit_code_ w' <> None.
Proof.
  induction ops as [|op rest IH]; intros w He Hc.
  - exists w. now repeat split.
  - destruct (exiting_step op w He Hc) as (w1 & Hstep & He1 & Hc1).
    destruct (IH w1 He1 Hc1) as (w2 & Hrun & He2 & Hc2).
    exists w2. simpl. unfold bind. rewrite Hstep. now repeat split.
Qed.

Lemma Exit_sets_exiting args w :
  exit_code_ w <> None ->
  exists w', Exit args w = Returns tt w'
             /\ is_exiting_ (browser w') = true /\ exit_code_ w' <> None.
Proof.
  intros Hc. rewrite Exit_eq. destruct (exit_code_ w); [|congruence].
  cbv zeta. rewrite Shutdown_eq. cbn [final]. eexists. split; [reflexivity|].
  branches; simpl; split; reflexivity || discriminate.
Qed.

(** C2. Exit precedence: after [Exit] has been called with the main message
    loop running, whatever operations follow (window-close cancellations
    that clear [is_quiting_] among them), they all return, [is_exiting_] is
    still set, and [OnWindowAllClosed] is then a call of [Shutdown], after
    which the Browser is shut down. *)
Theorem exit_precedence w args ops :
  exit_code_ w <> None ->
  exists w1 w2 w3,
    Exit args w = Returns tt w1
    /\ run ops w1 = Returns tt w2
    /\ is_exiting_ (browser w2) = true
    /\ OnWindowAllClosed w2 = Shutdown w2
    /\ OnWindowAllClosed w2 = Returns tt w3
    /\ is_shutdown_ (browser w3) = true.
Proof.
  intros Hc.
  destruct (Exit_sets_exiting args w Hc) as (w1 & HExit & He1 & Hc1).
  destruct (exiting_run ops w1 He1 Hc1) as (w2 & Hrun & He2 & _).
  assert (Hall : OnWindowAllClosed w2 = Shutdown w2).
  { rewrite OnWindowAllClosed_eq. now rewrite He2. }
  destruct (Shutdown w2) as [[] w3|] eqn:Hs.
  - exists w1, w2, w3. repeat split; try assumption.
    + congruence.
    + eauto using Shutdown_shuts_down.
  - rewrite Shutdown_eq in Hs. discriminate.
Qed.

Lemma exit_precedence_witness :
  let w := with_exit_code (Some 0) (initial two_observers false None) in
  exit_code_ w <> None
  /\ exists w1 w2 w3,
      Exit (Some 3) w = Returns tt w1
      /\ run [OpOnWindowCloseCancelled 1%nat] w1 = Returns tt w2
      /\ is_exiting_ (browser w2) = true
      /\ OnWindowAllClosed w2 = Shutdown w2
      /\ OnWindowAllClosed w2 = Returns tt w3
      /\ is_shutdown_ (browser w3) = true.
Proof.
  intros w. split; [discriminate|].
  apply (exit_precedence w (Some 3) [OpOnWindowCloseCancelled 1%nat]).
  discriminate.
Defined.

(** The cancellation in between does clear [is_quiting_], and the shutdown
    still happens. *)
Example exit_then_cancel_then_all_closed :
  let w := with_exit_code (Some 0) (initial two_observers false None) in
  exists w2 w3,
    run [OpExit (Some 3); OpOnWindowCloseCancelled 1%nat] w = Returns tt w2
    /\ is_quiting_ (browser w2) = false
    /\ OnWindowAllClosed w2 = Returns tt w3
    /\ is_shutdown_ (browser w3) = true
    /\ trace w3 = [DestroyAllWindows; Notify 1 Call.OnQuit;
                   Notify 2 Call.OnQuit].
Proof. do 2 eexists. repeat split; reflexivity. Qed.

(** ** Veto rounds *)

Lemma existsb_In (sets : BrowserObserver -> bool) observers :
  existsb sets observers = true
  <-> exists o, In o observers /\ sets o = true.
Proof. apply existsb_exists. Qed.

Lemma round_nth c observers i o :
  nth_error observers i = Some o ->
  nth_error (round c observers) i = Some (Notify (observer_id o) c).
Proof. intros H. unfold round. now rewrite nth_error_map, H. Qed.

Lemma round_length c observers :
  List.length (round c observers) = List.length observers.
Proof. apply length_map. Qed.

(** C3. A veto round notifies every registered observer once, in
    registration order, whichever observers set the flag, and its outcome is
    "some observer set the flag".  Before-quit: [HandleBeforeQuit] returns
    the negation.  Will-quit: [NotifyAndShutdown], when the Browser is not
    shut down yet, stops with [is_quiting_] cleared exactly when some
    observer set the flag, and shuts down otherwise. *)
Theorem veto_round_notifies_all w :
  let observers := observers_ (browser w) in
  (exists w',
      HandleBeforeQuit w
      = Returns (negb (existsb prevents_before_quit observers)) w'
      /\ browser w' = browser w
      /\ trace w'
         = trace w
           ++ map (fun o => Notify (observer_id o) Call.OnBeforeQuit) observers)
  /\ (is_shutdown_ (browser w) = false ->
      exists w' after,
        NotifyAndShutdown w = Returns tt w'
        /\ trace w'
           = trace w
             ++ map (fun o => Notify (observer_id o) Call.OnWillQuit) observers
             ++ after
        /\ is_shutdown_ (browser w')
           = negb (existsb prevents_will_quit observers)
        /\ is_quiting_ (browser w')
           = negb (existsb prevents_will_quit observers)
        /\ (existsb prevents_will_quit observers = true -> after = []))
  /\ (forall (sets : BrowserObserver -> bool),
        existsb sets observers = true
        <-> exists o, In o observers /\ sets o = true)
  /\ (forall c i o,
        nth_error observers i = Some o ->
        nth_error (map (fun o => Notify (observer_id o) c) observers) i
        = Some (Notify (observer_id o) c))
  /\ (forall c,
        List.length (map (fun o => Notify (observer_id o) c) observers)
        = List.length observers).
Proof.
  intros observers. split; [|split; [|split; [|split]]].
  - rewrite HandleBeforeQuit_eq. eexists. repeat split.
  - intros Hs. rewrite NotifyAndShutdown_eq, Hs. fold observers.
    destruct (existsb prevents_will_quit observers) eqn:Hv.
    + exists (with_browser (put_is_quiting false)
                (log (round Call.OnWillQuit observers) w)), [].
      split; [reflexivity|].
      split; [simpl; now rewrite app_nil_r|].
      simpl. rewrite Hs. repeat split.
    + eexists. eexists. split; [reflexivity|].
      split; [simpl; rewrite <- app_assoc; reflexivity|].
      simpl. repeat split. discriminate.
  - intros sets. apply existsb_In.
  - intros c i o. apply round_nth.
  - intros c. apply round_length.
Qed.

Lemma veto_round_notifies_all_witness :
  let w := initial two_observers false None in
  is_shutdown_ (browser w) = false
  /\ exists w' after,
      NotifyAndShutdown w = Returns tt w'
      /\ trace w'
         = trace w
           ++ map (fun o => Notify (observer_id o) Call.OnWillQuit)
                (observers_ (browser w))
           ++ after
      /\ is_shutdown_ (browser w')
         = negb (existsb prevents_will_quit (observers_ (browser w)))
      /\ is_quiting_ (browser w')
         = negb (existsb prevents_will_quit (observers_ (browser w)))
      /\ (existsb prevents_will_quit (observers_ (browser w)) = true ->
          after = []).
Proof.
  intros w. split; [reflexivity|].
  apply (proj1 (proj2 (veto_round_notifies_all w))). reflexivity.
Defined.

(** ** Cancellation *)

(** C4, as stated, fails in a world where [Exit] is in progress: the Browser
    below is not shut down, a window is open and no observer vetoes
    before-quit, yet the all-windows-closed notification that follows the
    cancelled quit shuts the Browser down and dispatches the OnQuit round
    instead of OnWindowAllClosed. *)
Lemma cancellation_counterexample :
  let w := exit_in_progress in
  reachable w
  /\ is_shutdown_ (browser w) = false
  /\ window_list_empty w = false
  /\ existsb prevents_before_quit (observers_ (browser w)) = false
  /\ exists w',
      run [OpQuit; OpOnWindowCloseCancelled 1%nat; OpOnWindowAllClosed] w
      = Returns tt w'
      /\ is_shutdown_ (browser w') = true
      /\ trace w' = trace w ++ [Notify 1 Call.OnQuit; Notify 2 Call.OnQuit].
Proof.
  split.
  { exists two_observers, false, None,
      [EnvMainMessageLoopRun 0; OpExit (Some 3)]. reflexivity. }
  repeat split. eexists. repeat split.
Qed.

(** C4. From a world that is neither shut down nor exiting, with a window
    open and no observer vetoing before-quit: [Quit], then a cancelled
    window close, then [OnWindowAllClosed] all return; the last call adds to
    the trace the OnWindowAllClosed round and nothing else (no will-quit
    round, no OnQuit round, no closure run), and the Browser is still not
    shut down. *)
Theorem cancelled_quit_does_not_shut_down w window :
  is_shutdown_ (browser w) = false ->
  is_exiting_ (browser w) = false ->
  window_list_empty w = false ->
  existsb prevents_before_quit (observers_ (browser w)) = false ->
  exists w1 w2 w3,
    Quit w = Returns tt w1
    /\ OnWindowCloseCancelled window w1 = Returns tt w2
    /\ OnWindowAllClosed w2 = Returns tt w3
    /\ is_quiting_ (browser w2) = false
    /\ trace w3
       = trace w2 ++ round Call.OnWindowAllClosed (observers_ (browser w))
    /\ browser w3 = browser w2
    /\ is_shutdown_ (browser w3) = false.
Proof.
  intros Hs He Hw Hv.
  rewrite Quit_eq, Hv, Hw. cbv zeta.
  destruct (is_quiting_ (browser w)) eqn:Hq.
  - eexists. eexists. eexists. split; [reflexivity|].
    rewrite OnWindowCloseCancelled_eq, Hq. split; [reflexivity|].
    rewrite OnWindowAllClosed_eq. simpl. rewrite He.
    split; [reflexivity|]. simpl. repeat split. assumption.
  - eexists. eexists. eexists. split; [reflexivity|].
    rewrite OnWindowCloseCancelled_eq. simpl. split; [reflexivity|].
    rewrite OnWindowAllClosed_eq. simpl. rewrite He.
    split; [reflexivity|]. simpl. repeat split. assumption.
Qed.

Lemma cancelled_quit_does_not_shut_down_witness :
  let w := initial two_observers false None in
  is_shutdown_ (browser w) = false
  /\ is_exiting_ (browser w) = false
  /\ window_list_empty w = false
  /\ existsb prevents_before_quit (observers_ (browser w)) = false
  /\ exists w1 w2 w3,
      Quit w = Returns tt w1
      /\ OnWindowCloseCancelled 1%nat w1 = Returns tt w2
      /\ OnWindowAllClosed w2 = Returns tt w3
      /\ is_quiting_ (browser w2) = false
      /\ trace w3
         = trace w2 ++ round Call.OnWindowAllClosed (observers_ (browser w))
      /\ browser w3 = browser w2
      /\ is_shutdown_ (browser w3) = false.
Proof.
  intros w. repeat (split; [reflexivity|]).
  apply (cancelled_quit_does_not_shut_down w 1%nat); reflexivity.
Defined.

(** ** After shutdown *)

(** C5, as stated, fails for [OnWindowCloseCancelled]: it has no shutdown
    guard, so it clears [is_quiting_] in a Browser that is shut down; a
    [Quit] after that sets it again. *)
Lemma quitting_changes_after_shutdown :
  let w := just_shut_down in
  reachable w
  /\ is_shutdown_ (browser w) = true
  /\ is_quiting_ (browser w) = true
  /\ exists w1 w2,
      OnWindowCloseCancelled 1%nat w = Returns tt w1
      /\ is_quiting_ (browser w1) = false
      /\ Quit w1 = Returns tt w2
      /\ is_quiting_ (browser w2) = true.
Proof.
  split.
  { exists two_observers, true, None, [OpShutdown]. reflexivity. }
  repeat split. do 2 eexists. repeat split.
Qed.

Lemma quitting_fixed_step op w :
  is_shutdown_ (browser w) = true ->
  is_quiting_ (browser w) = true ->
  is_cancel op = false ->
  is_shutdown_ (browser (final (step op w))) = true
  /\ is_quiting_ (browser (final (step op w))) = true.
Proof.
  intros Hs Hq Hop. destruct op; try discriminate Hop;
    step_eq; branches; simpl; split; congruence.
Qed.

Lemma final_bind {A} (m : M unit) (k : unit -> M A) w :
  final (bind m k w)
  = match m w with
    | Returns _ w1 => final (k tt w1)
    | Exits _ w1 => w1
    end.
Proof. unfold bind. now destruct (m w) as [[] ?|]. Qed.

(** C5. In a Browser that is shut down, with [is_quiting_] set as
    [Shutdown] leaves it, no sequence of operations other than
    [OnWindowCloseCancelled] changes [is_quiting_] (or [is_shutdown_]);
    [OnWindowCloseCancelled] clears [is_quiting_] there as anywhere else. *)
Theorem quitting_fixed_after_shutdown w ops :
  is_shutdown_ (browser w) = true ->
  is_quiting_ (browser w) = true ->
  forallb (fun op => negb (is_cancel op)) ops = true ->
  is_quiting_ (browser (final (run ops w))) = true
  /\ is_shutdown_ (browser (final (run ops w))) = true
  /\ forall window,
      OnWindowCloseCancelled window w
      = Returns tt (with_browser (put_is_quiting false) w).
Proof.
  intros Hs Hq Hops. split; [|split].
  3: { intros window. now rewrite OnWindowCloseCancelled_eq, Hq. }
  all: revert w Hs Hq; induction ops as [|op rest IH]; intros w Hs Hq;
    [assumption|].
  all: simpl in Hops; apply andb_prop in Hops; destruct Hops as [Hop Hrest];
    apply negb_true_iff in Hop;
    destruct (quitting_fixed_step op w Hs Hq Hop) as [Hs1 Hq1];
    simpl run; rewrite final_bind;
    destruct (step op w) as [[] w1|c w1]; simpl in Hs1, Hq1;
    [apply IH; assumption | assumption].
Qed.

Lemma quitting_fixed_after_shutdown_witness :
  let w := just_shut_down in
  let ops := [OpQuit; OpShutdown; OpOnWindowAllClosed; OpExit (Some 1)] in
  is_shutdown_ (browser w) = true
  /\ is_quiting_ (browser w) = true
  /\ forallb (fun op => negb (is_cancel op)) ops = true
  /\ is_quiting_ (browser (final (run ops w))) = true
  /\ is_shutdown_ (browser (final (run ops w))) = true
  /\ forall window,
      OnWindowCloseCancelled window w
      = Returns tt (with_browser (put_is_quiting false) w).
Proof.
  intros w ops. repeat (split; [reflexivity|]).
  apply (quitting_fixed_after_shutdown w ops); reflexivity.
Defined.

(** ** The quit closure *)

Lemma runs_of_app c a b : runs_of c (a ++ b) = (runs_of c a + runs_of c b)%nat.
Proof. unfold runs_of. now rewrite filter_app, length_app. Qed.

Lemma runs_of_round c call observers : runs_of c (round call observers) = 0%nat.
Proof. induction observers; simpl; auto. Qed.

Lemma runs_of_same c : runs_of c [RunClosure c] = 1%nat.
Proof. unfold runs_of. simpl. now rewrite Nat.eqb_refl. Qed.

Lemma runs_of_cons c e t :
  runs_of c (e :: t)
  = ((if is_run_of c e then 1 else 0) + runs_of c t)%nat.
Proof. unfold runs_of. simpl. now destruct (is_run_of c e). Qed.

Ltac runs_simpl :=
  rewrite ?runs_of_app, ?runs_of_round, ?runs_of_same, ?runs_of_cons;
  simpl; rewrite ?runs_of_round, ?Nat.add_0_r.

Lemma ran_or_stored_step closure base op w :
  is_supply op = false ->
  ran_or_stored closure base w ->
  ran_or_stored closure base (final (step op w)).
Proof.
  intros Hop (events & Ht & Hcase).
  destruct op; try discriminate Hop; step_eq; branches; simpl;
    unfold ran_or_stored; simpl; rewrite Ht, <- ?app_assoc;
    (eexists; split; [reflexivity|]);
    destruct Hcase as [(Hr & Hs)|(Hr & Hq & Hs)];
    simpl in *; try congruence;
    rewrite ?Hq; runs_simpl; rewrite Hr; simpl; auto.
Qed.

Lemma ran_or_stored_run closure base ops : forall w,
  forallb (fun op => negb (is_supply op)) ops = true ->
  ran_or_stored closure base w ->
  ran_or_stored closure base (final (run ops w)).
Proof.
  induction ops as [|op rest IH]; intros w Hops Hinv; [assumption|].
  simpl in Hops. apply andb_prop in Hops. destruct Hops as [Hop Hrest].
  apply negb_true_iff in Hop.
  pose proof (ran_or_stored_step closure base op w Hop Hinv) as Hstep.
  simpl run. rewrite final_bind.
  destruct (step op w) as [[] w1|c w1]; simpl in Hstep; auto.
Qed.

(** With no closure supplied, none is stored and none is run. *)
Lemma unsupplied_step closure op w :
  is_supply op = false ->
  runs_of closure (trace w) = 0%nat
  /\ quit_main_message_loop_ (browser w) = None ->
  runs_of closure (trace (final (step op w))) = 0%nat
  /\ quit_main_message_loop_ (browser (final (step op w))) = None.
Proof.
  intros Hop [Hr Hq].
  destruct op; try discriminate Hop; step_eq; branches; simpl;
    rewrite ?Hq; runs_simpl; rewrite ?Hr; split; trivial.
Qed.

Lemma unsupplied_run closure ops : forall w,
  forallb (fun op => negb (is_supply op)) ops = true ->
  runs_of closure (trace w) = 0%nat
  /\ quit_main_message_loop_ (browser w) = None ->
  runs_of closure (trace (final (run ops w))) = 0%nat
  /\ quit_main_message_loop_ (browser (final (run ops w))) = None.
Proof.
  induction ops as [|op rest IH]; intros w Hops Hinv; [assumption|].
  simpl in Hops. apply andb_prop in Hops. destruct Hops as [Hop Hrest].
  apply negb_true_iff in Hop.
  pose proof (unsupplied_step closure op w Hop Hinv) as Hstep.
  simpl run. rewrite final_bind.
  destruct (step op w) as [[] w1|c w1]; simpl in Hstep; auto.
Qed.

(** C6. The quit closure is never dropped.
    [SetMainMessageLoopQuitClosure fn] in a Browser that is shut down runs
    [fn] inside the call and stores nothing; otherwise it stores [fn], and
    the first [Shutdown] takes it out and runs it after the OnQuit round, any
    later [Shutdown] being a no-op.  The environment supplies the closure
    once: whatever operations follow the call, none of them another supply,
    [fn] has either run exactly once or is still stored and has not run; and
    in an execution of a fresh Browser where nothing was supplied before
    either, that holds of the whole trace. *)
Theorem continuation_never_dropped w fn ops :
  forallb (fun op => negb (is_supply op)) ops = true ->
  exists w1,
    SetMainMessageLoopQuitClosure fn w = Returns tt w1
    /\ (is_shutdown_ (browser w) = true -> w1 = log [RunClosure fn] w)
    /\ (is_shutdown_ (browser w) = false ->
        w1 = with_browser (put_quit_main_message_loop (Some fn)) w
        /\ exists w2,
            Shutdown w1 = Returns tt w2
            /\ trace w2
               = trace w ++ round Call.OnQuit (observers_ (browser w))
                 ++ [RunClosure fn]
            /\ quit_main_message_loop_ (browser w2) = None
            /\ Shutdown w2 = Returns tt w2)
    /\ ran_or_stored fn (trace w) (final (run ops w1))
    /\ (forall observers e u before,
          forallb (fun op => negb (is_supply op)) before = true ->
          run before (initial observers e u) = Returns tt w ->
          ran_or_stored fn [] (final (run ops w1))
          /\ (runs_of fn (trace (final (run ops w1))) <= 1)%nat).
Proof.
  intros Hops.
  assert (Hafter :
            ran_or_stored fn (trace w)
              (final (run ops (final (SetMainMessageLoopQuitClosure fn w))))).
  { rewrite SetMainMessageLoopQuitClosure_eq. cbn [final].
    apply ran_or_stored_run; [assumption|].
    destruct (is_shutdown_ (browser w)) eqn:Hs.
    - exists [RunClosure fn]. split; [reflexivity|]. left.
      split; [apply runs_of_same|exact Hs].
    - exists []. split; [simpl; now rewrite app_nil_r|]. right.
      repeat split. exact Hs. }
  rewrite SetMainMessageLoopQuitClosure_eq in *. cbn [final] in Hafter.
  eexists. split; [reflexivity|].
  split; [intros Hs; now rewrite Hs|].
  split.
  { intros Hs. rewrite Hs. split; [reflexivity|].
    rewrite Shutdown_eq. simpl. rewrite Hs.
    eexists. split; [reflexivity|]. repeat split. }
  split; [exact Hafter|].
  intros observers e u before Hbefore Hrun.
  pose proof (unsupplied_run fn before (initial observers e u) Hbefore
                (conj eq_refl eq_refl)) as [Hr0 _].
  rewrite Hrun in Hr0. cbn [final] in Hr0.
  destruct Hafter as (events & Ht & Hcase).
  assert (Hsame : runs_of fn (trace w ++ events) = runs_of fn events).
  { rewrite runs_of_app, Hr0. reflexivity. }
  split.
  - exists (trace w ++ events). split; [exact Ht|]. now rewrite Hsame.
  - rewrite Ht, Hsame. destruct Hcase as [[H _]|[H _]]; rewrite H; lia.
Qed.

Lemma continuation_never_dropped_witness :
  let w := initial two_observers true None in
  let ops := [OpQuit; OpShutdown; OpShutdown] in
  forallb (fun op => negb (is_supply op)) ops = true
  /\ forallb (fun op => negb (is_supply op)) [] = true
  /\ run [] (initial two_observers true None) = Returns tt w
  /\ exists w1,
      SetMainMessageLoopQuitClosure 7%nat w = Returns tt w1
      /\ ran_or_stored 7%nat (trace w) (final (run ops w1))
      /\ ran_or_stored 7%nat [] (final (run ops w1))
      /\ (runs_of 7%nat (trace (final (run ops w1))) <= 1)%nat.
Proof.
  intros w ops.
  assert (Hops : forallb (fun op => negb (is_supply op)) ops = true)
    by reflexivity.
  assert (Hbefore : forallb (fun op => negb (is_supply op)) [] = true)
    by reflexivity.
  assert (Hrun : run [] (initial two_observers true None) = Returns tt w)
    by reflexivity.
  destruct (continuation_never_dropped w 7%nat ops Hops)
    as (w1 & HSet & _ & _ & Hafter & Hwhole).
  destruct (Hwhole two_observers true None [] Hbefore Hrun) as [H1 H2].
  split; [exact Hops|]. split; [exact Hbefore|]. split; [exact Hrun|].
  exists w1. split; [exact HSet|]. split; [exact Hafter|].
  split; [exact H1|exact H2].
Defined.

(** The closure is run by the first shutdown, once, whatever follows. *)
Example closure_supplied_once :
  let w' := final (run [OpSetMainMessageLoopQuitClosure 7%nat; OpQuit;
                        OpShutdown; OpShutdown; OpOnWindowAllClosed]
                       (initial two_observers true None)) in
  runs_of 7%nat (trace w') = 1%nat
  /\ quit_main_message_loop_ (browser w') = None.
Proof. vm_compute. split; reflexivity. Qed.

(** ** The ready signal *)

Lemma resolve_at_length a : forall h,
  List.length (Promise.resolve_at a h) = List.length h.
Proof.
  induction a as [|a IH]; intros [|p h]; simpl; try reflexivity.
  now rewrite IH.
Qed.

Lemma resolve_at_same a : forall h,
  (a < List.length h)%nat ->
  nth_error (Promise.resolve_at a h) a = Some Resolved.
Proof.
  induction a as [|a IH]; intros [|p h] Hlt; simpl in *; try lia.
  - reflexivity.
  - apply IH. lia.
Qed.

(** Resolving is idempotent. *)
Lemma resolve_at_twice a : forall h,
  Promise.resolve_at a (Promise.resolve_at a h) = Promise.resolve_at a h.
Proof.
  induction a as [|a IH]; intros [|p h]; simpl; try reflexivity.
  now rewrite IH.
Qed.

Lemma ready_promise_invariant_step op w w' :
  ready_promise_invariant w ->
  step op w = Returns tt w' ->
  ready_promise_invariant w'.
Proof.
  intros Hinv. destruct op; step_eq; branches; intros H;
    inversion H; subst w'; clear H; try exact Hinv;
    intros a Ha; simpl in *; try congruence.
  1, 2: assert (a = p) by congruence; subst a;
    destruct (Hinv p Ha) as [Hlt _]; rewrite resolve_at_length;
    split; [assumption | intros _; now apply resolve_at_same].
  all: inversion Ha; subst a; rewrite ?resolve_at_length, length_app;
    simpl; split; try lia.
  - intros _. apply resolve_at_same. rewrite length_app. simpl. lia.
  - congruence.
Qed.

Lemma ready_promise_invariant_run ops : forall w w',
  ready_promise_invariant w ->
  run ops w = Returns tt w' ->
  ready_promise_invariant w'.
Proof.
  induction ops as [|op rest IH]; intros w w' Hinv Hrun.
  - inversion Hrun. now subst.
  - simpl in Hrun. unfold bind in Hrun.
    destruct (step op w) as [[] w1|] eqn:Hstep; [|discriminate].
    eauto using ready_promise_invariant_step.
Qed.

Lemma ready_promise_invariant_initial observers e u :
  ready_promise_invariant (initial observers e u).
Proof. intros p Hp. simpl in Hp. discriminate. Qed.

Lemma reachable_ready_promise w :
  reachable w -> ready_promise_invariant w.
Proof.
  intros (observers & e & u & ops & Hrun).
  eauto using ready_promise_invariant_run, ready_promise_invariant_initial.
Qed.

(** Nothing clears [is_ready_]. *)
Lemma is_ready_step op w w' :
  is_ready_ (browser w) = true ->
  step op w = Returns tt w' ->
  is_ready_ (browser w') = true.
Proof.
  intros Hr. destruct op; step_eq; branches; intros H;
    inversion H; subst w'; clear H; simpl; auto; discriminate.
Qed.

Lemma is_ready_run ops : forall w w',
  is_ready_ (browser w) = true ->
  run ops w = Returns tt w' ->
  is_ready_ (browser w') = true.
Proof.
  induction ops as [|op rest IH]; intros w w' Hr Hrun.
  - inversion Hrun. now subst.
  - simpl in Hrun. unfold bind in Hrun.
    destruct (step op w) as [[] w1|] eqn:Hstep; [|discriminate].
    eauto using is_ready_step.
Qed.

Lemma run_app a b w :
  run (a ++ b) w = bind (run a) (fun _ => run b) w.
Proof.
  revert w. induction a as [|op a IH]; intros w; [reflexivity|].
  simpl. unfold bind in *. destruct (step op w) as [[] w1|]; auto.
Qed.

(** Once [DidFinishLaunching] has run, the Browser is ready for good. *)
Lemma is_ready_after_launch ops1 launch_info ops2 w0 w :
  run (ops1 ++ OpDidFinishLaunching launch_info :: ops2) w0 = Returns tt w ->
  is_ready_ (browser w) = true.
Proof.
  rewrite run_app. unfold bind at 1.
  destruct (run ops1 w0) as [[] w1|]; [|discriminate].
  simpl run. unfold bind at 1. simpl step.
  rewrite DidFinishLaunching_eq. apply is_ready_run. reflexivity.
Qed.

(** [WhenReady] in a ready Browser of any execution. *)
Lemma WhenReady_when_ready isolate w :
  reachable w ->
  is_ready_ (browser w) = true ->
  exists h w',
    WhenReady isolate w = Returns h w'
    /\ ready_promise_ (browser w') = Some h
    /\ handle_resolved w' h = true
    /\ match ready_promise_ (browser w) with
       | None => h = List.length (promises w)
       | Some p => h = p /\ w' = w
       end.
Proof.
  intros Hreach Hr. pose proof (reachable_ready_promise w Hreach) as Hinv.
  rewrite WhenReady_eq. destruct (ready_promise_ (browser w)) as [p|] eqn:Hp.
  - exists p, w. destruct (Hinv p Hp) as [_ Hres]. unfold handle_resolved.
    rewrite (Hres Hr). repeat split. exact Hp.
  - eexists. eexists. split; [reflexivity|]. cbv zeta.
    repeat split. unfold handle_resolved. simpl. rewrite Hr.
    rewrite resolve_at_same; [reflexivity|]. rewrite length_app. simpl. lia.
Qed.

(** Once created, the promise behind [ready_promise_] is never replaced. *)
Lemma ready_promise_step p op w w' :
  ready_promise_ (browser w) = Some p ->
  step op w = Returns tt w' ->
  ready_promise_ (browser w') = Some p.
Proof.
  intros Hp. destruct op; step_eq; branches; intros H;
    inversion H; subst w'; clear H; simpl; auto; congruence.
Qed.

Lemma ready_promise_run p ops : forall w w',
  ready_promise_ (browser w) = Some p ->
  run ops w = Returns tt w' ->
  ready_promise_ (browser w') = Some p.
Proof.
  induction ops as [|op rest IH]; intros w w' Hp Hrun.
  - inversion Hrun. now subst.
  - simpl in Hrun. unfold bind in Hrun.
    destruct (step op w) as [[] w1|] eqn:Hstep; [|discriminate].
    eauto using ready_promise_step.
Qed.

Lemma WhenReady_returns_ready_promise isolate w h w1 :
  WhenReady isolate w = Returns h w1 ->
  ready_promise_ (browser w1) = Some h.
Proof.
  rewrite WhenReady_eq.
  destruct (ready_promise_ (browser w)) eqn:Hp; intros H; inversion H;
    subst; [assumption|reflexivity].
Qed.

(** [WhenReady] before readiness: the handle it returned is resolved by the
    [DidFinishLaunching] that follows, however much happens in between. *)
Lemma WhenReady_then_launch isolate launch_info ops w h w1 w2 w3 :
  reachable w ->
  WhenReady isolate w = Returns h w1 ->
  run ops w1 = Returns tt w2 ->
  DidFinishLaunching launch_info w2 = Returns tt w3 ->
  handle_resolved w3 h = true.
Proof.
  intros Hreach Hw Hrun Hd.
  assert (Hreach2 : reachable w2).
  { destruct Hreach as (observers & e & u & ops0 & H0).
    exists observers, e, u, (ops0 ++ OpWhenReady isolate :: ops).
    rewrite run_app. unfold bind at 1. rewrite H0. simpl. unfold bind at 1.
    unfold void, bind at 1. now rewrite Hw. }
  pose proof (WhenReady_returns_ready_promise _ _ _ _ Hw) as Hp1.
  pose proof (ready_promise_run _ _ _ _ Hp1 Hrun) as Hp2.
  destruct (reachable_ready_promise w2 Hreach2 h Hp2) as [Hlt _].
  rewrite DidFinishLaunching_eq, Hp2 in Hd. inversion Hd.
  unfold handle_resolved. simpl. now rewrite resolve_at_same.
Qed.

(** C7. Ready-signal replay: in any execution in which [DidFinishLaunching]
    has run, whatever was called before and after it, [WhenReady] returns a
    handle to the promise held in [ready_promise_], created by this call if
    there was none, and that promise is resolved when the call returns. *)
Theorem ready_signal_replay observers e u ops1 launch_info ops2 w isolate :
  run (ops1 ++ OpDidFinishLaunching launch_info :: ops2)
      (initial observers e u) = Returns tt w ->
  is_ready_ (browser w) = true
  /\ exists h w',
      WhenReady isolate w = Returns h w'
      /\ ready_promise_ (browser w') = Some h
      /\ handle_resolved w' h = true
      /\ match ready_promise_ (browser w) with
         | None => h = List.length (promises w)
         | Some p => h = p /\ w' = w
         end.
Proof.
  intros Hrun.
  pose proof (is_ready_after_launch _ _ _ _ _ Hrun) as Hr.
  split; [exact Hr|].
  apply WhenReady_when_ready; [|exact Hr].
  now exists observers, e, u, (ops1 ++ OpDidFinishLaunching launch_info :: ops2).
Qed.

Lemma ready_signal_replay_witness :
  let ops1 := [OpWillFinishLaunching] in
  let ops2 := [OpActivate true] in
  let w := mkWorld (mkBrowser false false false true 0 two_observers None None)
             true None None []
             [Notify 1 Call.OnWillFinishLaunching;
              Notify 2 Call.OnWillFinishLaunching;
              Notify 1 (Call.OnFinishLaunching []);
              Notify 2 (Call.OnFinishLaunching []);
              Notify 1 (Call.OnActivate true);
              Notify 2 (Call.OnActivate true)] in
  run (ops1 ++ OpDidFinishLaunching [] :: ops2)
      (initial two_observers true None) = Returns tt w
  /\ is_ready_ (browser w) = true
  /\ exists h w',
      WhenReady 0%nat w = Returns h w'
      /\ ready_promise_ (browser w') = Some h
      /\ handle_resolved w' h = true
      /\ match ready_promise_ (browser w) with
         | None => h = List.length (promises w)
         | Some p => h = p /\ w' = w
         end.
Proof.
  intros ops1 ops2 w. split; [reflexivity|].
  apply (ready_signal_replay two_observers true None ops1 [] ops2 w 0%nat).
  reflexivity.
Defined.

(** Both call orders on a fresh Browser end with the same resolved handle. *)
Example ready_signal_either_order :
  let w := initial two_observers true None in
  (exists w1 w2,
      DidFinishLaunching [] w = Returns tt w1
      /\ WhenReady 0%nat w1 = Returns 0%nat w2
      /\ handle_resolved w2 0%nat = true)
  /\ (exists w1 w2,
        WhenReady 0%nat w = Returns 0%nat w1
        /\ handle_resolved w1 0%nat = false
        /\ DidFinishLaunching [] w1 = Returns tt w2
        /\ handle_resolved w2 0%nat = true).
Proof. split; do 2 eexists; repeat split. Qed.

(** ** Exit before the main message loop *)

(** C8. With no main message loop yet, [Exit] leaves through [exit(code)]
    with the code it was given (0 when it was given none), at once: the
    world, its trace included, is the one [Exit] was called in, so no
    observer has been notified of anything. *)
Theorem Exit_before_message_loop w code :
  exit_code_ w = None ->
  Exit (Some code) w = Exits code w
  /\ Exit None w = Exits 0 w
  /\ forall args, trace (final (Exit args w)) = trace w.
Proof.
  intros Hc. repeat split; try intros args; rewrite Exit_eq, Hc; reflexivity.
Qed.

Lemma Exit_before_message_loop_witness :
  let w := initial two_observers false None in
  exit_code_ w = None
  /\ Exit (Some 7) w = Exits 7 w
  /\ Exit None w = Exits 0 w
  /\ forall args, trace (final (Exit args w)) = trace w.
Proof.
  intros w. split; [reflexivity|].
  apply (Exit_before_message_loop w 7). reflexivity.
Defined.

(** ** Pass-through notifications *)

(** C9. [OpenFile], [OpenURL] and [Activate] return, having notified every
    observer in order and touched nothing of the Browser: the four flags and
    the stored quit closure, like every other member, are as before. *)
Theorem app_notifications_frame w file_path url has_visible_windows :
  let observers := observers_ (browser w) in
  let unchanged (w' : World) :=
    is_quiting_ (browser w') = is_quiting_ (browser w)
    /\ is_exiting_ (browser w') = is_exiting_ (browser w)
    /\ is_shutdown_ (browser w') = is_shutdown_ (browser w)
    /\ is_ready_ (browser w') = is_ready_ (browser w)
    /\ quit_main_message_loop_ (browser w')
       = quit_main_message_loop_ (browser w)
    /\ browser w' = browser w in
  (exists w',
      OpenFile file_path w
      = Returns (existsb prevents_open_file observers) w'
      /\ trace w' = trace w ++ round (Call.OnOpenFile file_path) observers
      /\ unchanged w')
  /\ (exists w',
        OpenURL url w = Returns tt w'
        /\ trace w' = trace w ++ round (Call.OnOpenURL url) observers
        /\ unchanged w')
  /\ (exists w',
        Activate has_visible_windows w = Returns tt w'
        /\ trace w'
           = trace w ++ round (Call.OnActivate has_visible_windows) observers
        /\ unchanged w').
Proof.
  intros observers unchanged. unfold unchanged.
  rewrite OpenFile_eq, OpenURL_eq, Activate_eq.
  repeat split; eexists; repeat split.
Qed.

(** ** A vetoed will-quit round *)

(** C10. When some observer vetoes the will-quit round of a Browser that is
    not shut down, [NotifyAndShutdown] returns with [is_quiting_] cleared and
    nothing else in the Browser changed: it is not shut down, [is_exiting_]
    and the stored closure are as before, and the trace has gained the
    will-quit round only, so no OnQuit notification and no closure run.  A
    [Quit] after that is not the early return: it starts over with a
    before-quit round. *)
Theorem vetoed_will_quit_only_clears_quitting w :
  is_shutdown_ (browser w) = false ->
  existsb prevents_will_quit (observers_ (browser w)) = true ->
  let observers := observers_ (browser w) in
  exists w',
    NotifyAndShutdown w = Returns tt w'
    /\ browser w' = put_is_quiting false (browser w)
    /\ is_quiting_ (browser w') = false
    /\ is_shutdown_ (browser w') = false
    /\ is_exiting_ (browser w') = is_exiting_ (browser w)
    /\ quit_main_message_loop_ (browser w')
       = quit_main_message_loop_ (browser w)
    /\ trace w' = trace w ++ round Call.OnWillQuit observers
    /\ quit_notifications (round Call.OnWillQuit observers) = []
    /\ runs (round Call.OnWillQuit observers) = 0%nat
    /\ exists w'' after,
        Quit w' = Returns tt w''
        /\ trace w'' = trace w' ++ round Call.OnBeforeQuit observers ++ after.
Proof.
  intros Hs Hv observers. rewrite NotifyAndShutdown_eq, Hs, Hv.
  eexists. split; [reflexivity|]. fold observers.
  repeat (split; [first [reflexivity | assumption
                        | now apply quit_notifications_other_round
                        | apply runs_round]|]).
  rewrite Quit_eq. cbv zeta. simpl. rewrite NotifyAndShutdown_eq. simpl.
  rewrite Hs, Hv. fold observers.
  destruct (existsb prevents_before_quit observers);
    [|destruct (window_list_empty w)];
    eexists; eexists; (split; [reflexivity|]); simpl;
    rewrite <- ?app_assoc; try reflexivity.
  now rewrite app_nil_r.
Qed.

Lemma vetoed_will_quit_only_clears_quitting_witness :
  let w := with_browser (put_is_quiting true)
             (initial two_observers true None) in
  let observers := observers_ (browser w) in
  is_shutdown_ (browser w) = false
  /\ existsb prevents_will_quit (observers_ (browser w)) = true
  /\ exists w',
      NotifyAndShutdown w = Returns tt w'
      /\ browser w' = put_is_quiting false (browser w)
      /\ is_quiting_ (browser w') = false
      /\ is_shutdown_ (browser w') = false
      /\ is_exiting_ (browser w') = is_exiting_ (browser w)
      /\ quit_main_message_loop_ (browser w')
         = quit_main_message_loop_ (browser w)
      /\ trace w' = trace w ++ round Call.OnWillQuit observers
      /\ quit_notifications (round Call.OnWillQuit observers) = []
      /\ runs (round Call.OnWillQuit observers) = 0%nat
      /\ exists w'' after,
          Quit w' = Returns tt w''
          /\ trace w'' = trace w' ++ round Call.OnBeforeQuit observers ++ after.
Proof.
  intros w observers. do 2 (split; [reflexivity|]).
  apply (vetoed_will_quit_only_clears_quitting w); reflexivity.
Defined.

(** Scenario: no window open, [Quit], the will-quit round is vetoed.  The
    Browser is back to not quitting, no OnQuit was sent and the closure is
    still stored; a second [Quit] goes through both rounds again. *)
Example quit_vetoed_at_will_quit :
  let w := with_browser (put_quit_main_message_loop (Some 7%nat))
             (initial two_observers true None) in
  exists w1 w2,
    Quit w = Returns tt w1
    /\ is_quiting_ (browser w1) = false
    /\ quit_main_message_loop_ (browser w1) = Some 7%nat
    /\ trace w1 = [Notify 1 Call.OnBeforeQuit; Notify 2 Call.OnBeforeQuit;
                   Notify 1 Call.OnWillQuit; Notify 2 Call.OnWillQuit]
    /\ Quit w1 = Returns tt w2
    /\ trace w2 = trace w1 ++ trace w1.
Proof. do 2 eexists. repeat split. Qed.

(** Scenario: no window open, [Quit], nobody vetoes: one OnQuit round, then
    the closure. *)
Example quit_with_no_window :
  let w := mkWorld (mkBrowser false false false false 0
                      [mkObserver 1 false false false] (Some 7%nat) None)
             true (Some 0) None [] [] in
  exists w1,
    Quit w = Returns tt w1
    /\ is_shutdown_ (browser w1) = true
    /\ trace w1 = [Notify 1 Call.OnBeforeQuit; Notify 1 Call.OnWillQuit;
                   Notify 1 Call.OnQuit; RunClosure 7%nat].
Proof. eexists. repeat split. Qed.

(** * Further properties of the code *)

(** ** Invariants along any sequence of operations *)

(** A property every operation keeps is kept by every sequence, up to the
    point where the sequence returns or the process exits. *)
Lemma run_keeps (P : World -> Prop) :
  (forall op w, P w -> P (final (step op w))) ->
  forall ops w, P w -> P (final (run ops w)).
Proof.
  intros Hstep. induction ops as [|op rest IH]; intros w HP; [exact HP|].
  simpl run. rewrite final_bind. specialize (Hstep op w HP).
  destruct (step op w) as [[] w1|c w1]; simpl in Hstep; auto.
Qed.

Lemma reachable_keeps (P : World -> Prop) :
  (forall observers e u, P (initial observers e u)) ->
  (forall op w, P w -> P (final (step op w))) ->
  forall w, reachable w -> P w.
Proof.
  intros Hinit Hstep w (observers & e & u & ops & Hrun).
  pose proof (run_keeps P Hstep ops _ (Hinit observers e u)) as H.
  now rewrite Hrun in H.
Qed.

(** X1. No operation clears [is_shutdown_], [is_exiting_] or [is_ready_]:
    each of them, once set, is set at the end of every sequence of
    operations. *)
Theorem lifecycle_flags_are_never_cleared w ops :
  (is_shutdown_ (browser w) = true ->
   is_shutdown_ (browser (final (run ops w))) = true)
  /\ (is_exiting_ (browser w) = true ->
      is_exiting_ (browser (final (run ops w))) = true)
  /\ (is_ready_ (browser w) = true ->
      is_ready_ (browser (final (run ops w))) = true).
Proof.
  repeat split.
  - apply (run_keeps (fun w' => is_shutdown_ (browser w') = true)).
    intros op w' H. destruct op; step_eq; branches; simpl; congruence.
  - apply (run_keeps (fun w' => is_exiting_ (browser w') = true)).
    intros op w' H. destruct op; step_eq; branches; simpl; congruence.
  - apply (run_keeps (fun w' => is_ready_ (browser w') = true)).
    intros op w' H. destruct op; step_eq; branches; simpl; congruence.
Qed.

Lemma lifecycle_flags_are_never_cleared_witness :
  let w := exit_in_progress in
  let ops := [OpOnWindowCloseCancelled 1%nat; OpQuit; OpOnWindowAllClosed] in
  is_exiting_ (browser w) = true
  /\ is_exiting_ (browser (final (run ops w))) = true.
Proof.
  intros w ops. split; [reflexivity|].
  apply (proj1 (proj2 (lifecycle_flags_are_never_cleared w ops))).
  reflexivity.
Defined.

Lemma members_kept_step op w :
  observers_ (browser (final (step op w))) = observers_ (browser w)
  /\ badge_count_ (browser (final (step op w))) = badge_count_ (browser w).
Proof. destruct op; step_eq; branches; simpl; now split. Qed.

(** X2. browser.cc never registers or removes an observer and never writes
    the badge count: [observers_] and [badge_count_] are the same after any
    sequence of operations. *)
Theorem observers_and_badge_count_are_never_written w ops :
  observers_ (browser (final (run ops w))) = observers_ (browser w)
  /\ badge_count_ (browser (final (run ops w))) = badge_count_ (browser w).
Proof.
  apply (run_keeps
           (fun w' => observers_ (browser w') = observers_ (browser w)
                      /\ badge_count_ (browser w') = badge_count_ (browser w)));
    [|now split].
  clear ops. intros op w' [Ho Hb].
  destruct (members_kept_step op w') as [Ho' Hb']. split; congruence.
Qed.

(** ** Leaving the process *)

Lemma step_exits op w code w' :
  step op w = Exits code w' ->
  exit_code_ w = None /\ w' = w
  /\ exists args, op = OpExit args /\ code = GetNext args 0.
Proof.
  destruct op; step_eq; branches; intros H; try discriminate H.
  inversion H. subst. repeat split; trivial. now exists args.
Qed.

Lemma step_returns op w :
  exit_code_ w <> None ->
  exists w', step op w = Returns tt w' /\ exit_code_ w' <> None.
Proof.
  intros Hc. destruct op; step_eq; branches;
    try (eexists; split; [reflexivity|]; simpl; assumption || discriminate);
    congruence.
Qed.

(** X3. The only way out of the process is [Exit] called while there is no
    main message loop: if a sequence of operations ends in [exit(code)], some
    [Exit] of the sequence was given that code (0 if it was given none) and
    there was still no loop then; and once the loop runs, every sequence of
    operations returns. *)
Theorem process_exits_only_through_early_Exit ops w :
  (forall code w',
      run ops w = Exits code w' ->
      exit_code_ w' = None
      /\ exists args, In (OpExit args) ops /\ code = GetNext args 0)
  /\ (exit_code_ w <> None ->
      exists w', run ops w = Returns tt w' /\ exit_code_ w' <> None).
Proof.
  split.
  - revert w. induction ops as [|op rest IH]; intros w code w' H.
    + discriminate H.
    + simpl in H. unfold bind in H.
      destruct (step op w) as [[] w1|c w1] eqn:Hstep.
      * destruct (IH w1 code w' H) as (Hc & args & Hin & Hcode).
        split; [exact Hc|]. exists args. split; [now right|exact Hcode].
      * inversion H. subst.
        destruct (step_exits _ _ _ _ Hstep) as (Hc & Hw & args & Hop & Hcode).
        subst. split; [exact Hc|]. exists args. split; [now left|reflexivity].
  - revert w. induction ops as [|op rest IH]; intros w Hc.
    + now exists w.
    + destruct (step_returns op w Hc) as (w1 & Hstep & Hc1).
      destruct (IH w1 Hc1) as (w2 & Hrun & Hc2).
      exists w2. simpl. unfold bind. rewrite Hstep. now split.
Qed.

Lemma process_exits_only_through_early_Exit_witness :
  let w := with_exit_code (Some 0) (initial two_observers false None) in
  let ops := [OpExit (Some 3); OpOnWindowAllClosed; OpExit None] in
  exit_code_ w <> None
  /\ exists w', run ops w = Returns tt w' /\ exit_code_ w' <> None.
Proof.
  intros w ops. split; [discriminate|].
  apply (proj2 (process_exits_only_through_early_Exit ops w)). discriminate.
Defined.

(** ** What a shut-down Browser no longer does *)

Lemma will_quit_notifications_round c observers :
  c <> Call.OnWillQuit -> will_quit_notifications (round c observers) = [].
Proof.
  intros Hc. induction observers as [|o rest IH]; [reflexivity|].
  unfold will_quit_notifications, round in *. simpl.
  destruct c; try contradiction; exact IH.
Qed.

Ltac notifications_simpl :=
  simpl; unfold will_quit_notifications, quit_notifications in *;
  rewrite ?filter_app; simpl;
  fold will_quit_notifications in *; fold quit_notifications in *;
  rewrite ?will_quit_notifications_round by discriminate;
  rewrite ?quit_notifications_other_round by discriminate;
  rewrite ?app_nil_r.

Lemma runs_cons e t :
  runs (e :: t) = ((if is_run e then 1 else 0) + runs t)%nat.
Proof. unfold runs. simpl. now destruct (is_run e). Qed.

(** What one operation does in a Browser that is shut down. *)
Lemma shut_down_step op w :
  is_shutdown_ (browser w) = true ->
  is_shutdown_ (browser (final (step op w))) = true
  /\ will_quit_notifications (trace (final (step op w)))
     = will_quit_notifications (trace w)
  /\ quit_notifications (trace (final (step op w)))
     = quit_notifications (trace w)
  /\ ((runs (trace (final (step op w))) = runs (trace w)
       /\ is_supply op = false)
      \/ (runs (trace (final (step op w))) = S (runs (trace w))
          /\ is_supply op = true)).
Proof.
  intros Hs. destruct op; step_eq; branches; simpl in *; try congruence;
    notifications_simpl; rewrite ?runs_app, ?runs_cons, ?runs_round;
    repeat split; trivial;
    first [left; split; [unfold runs; simpl; lia | reflexivity]
          | right; split; [unfold runs; simpl; lia | reflexivity]].
Qed.

(** X4. Once the Browser is shut down, no sequence of operations sends
    another OnWillQuit or OnQuit notification, and the only closures run are
    those handed to [SetMainMessageLoopQuitClosure] from then on, one run
    per call. *)
Theorem shut_down_browser_is_quiet w ops :
  is_shutdown_ (browser w) = true ->
  will_quit_notifications (trace (final (run ops w)))
  = will_quit_notifications (trace w)
  /\ quit_notifications (trace (final (run ops w)))
     = quit_notifications (trace w)
  /\ (runs (trace (final (run ops w)))
      <= runs (trace w) + List.length (filter is_supply ops))%nat
  /\ (forall w',
        run ops w = Returns tt w' ->
        runs (trace w')
        = (runs (trace w) + List.length (filter is_supply ops))%nat).
Proof.
  revert w. induction ops as [|op rest IH]; intros w Hs.
  - simpl. repeat split; trivial; try lia.
    intros w' H. inversion H. subst. lia.
  - destruct (shut_down_step op w Hs) as (Hs1 & Hw1 & Hq1 & Hr1).
    simpl run. rewrite final_bind. unfold bind.
    destruct (step op w) as [[] w1|c w1] eqn:Hop; simpl in *.
    + destruct (IH w1 Hs1) as (Hw2 & Hq2 & Hr2 & Hr3).
      rewrite Hw2, Hq2, Hw1, Hq1. repeat split; trivial.
      * destruct Hr1 as [[Hr1 Hop1]|[Hr1 Hop1]]; rewrite Hop1; simpl; lia.
      * intros w' H. rewrite (Hr3 w' H).
        destruct Hr1 as [[Hr1 Hop1]|[Hr1 Hop1]]; rewrite Hop1; simpl; lia.
    + repeat split; trivial; [|discriminate].
      destruct Hr1 as [[Hr1 Hop1]|[Hr1 Hop1]]; rewrite Hop1; simpl; lia.
Qed.

Lemma shut_down_browser_is_quiet_witness :
  let w := just_shut_down in
  let ops := [OpOnWindowCloseCancelled 1%nat; OpQuit;
              OpSetMainMessageLoopQuitClosure 7%nat; OpOnWindowAllClosed] in
  is_shutdown_ (browser w) = true
  /\ will_quit_notifications (trace (final (run ops w)))
     = will_quit_notifications (trace w)
  /\ quit_notifications (trace (final (run ops w)))
     = quit_notifications (trace w)
  /\ (runs (trace (final (run ops w)))
      <= runs (trace w) + List.length (filter is_supply ops))%nat
  /\ (forall w',
        run ops w = Returns tt w' ->
        runs (trace w')
        = (runs (trace w) + List.length (filter is_supply ops))%nat).
Proof.
  intros w ops. split; [reflexivity|].
  apply (shut_down_browser_is_quiet w ops). reflexivity.
Defined.

(** ** The quit closure along an execution *)

Lemma closure_invariant_step op w :
  closure_invariant w -> closure_invariant (final (step op w)).
Proof.
  intros [Hrun Hnone].
  destruct op; step_eq; branches; simpl in *; try congruence;
    split; simpl; intros H; try congruence; auto;
    rewrite ?runs_app, ?runs_cons, ?runs_round; simpl;
    rewrite ?Hrun by congruence; reflexivity.
Qed.

(** X5. In every world of an execution: while the Browser is not shut down
    no closure has been run, and once it is shut down no closure is left in
    [quit_main_message_loop_]. *)
Theorem closure_runs_only_after_shutdown w :
  reachable w ->
  (is_shutdown_ (browser w) = false -> runs (trace w) = 0%nat)
  /\ (is_shutdown_ (browser w) = true ->
      quit_main_message_loop_ (browser w) = None).
Proof.
  apply (reachable_keeps closure_invariant).
  - intros observers e u. split; [reflexivity|discriminate].
  - apply closure_invariant_step.
Qed.

Lemma closure_runs_only_after_shutdown_witness :
  let w := with_browser (put_quit_main_message_loop (Some 7%nat))
             (initial two_observers true None) in
  reachable w
  /\ (is_shutdown_ (browser w) = false -> runs (trace w) = 0%nat)
  /\ (is_shutdown_ (browser w) = true ->
      quit_main_message_loop_ (browser w) = None).
Proof.
  intros w.
  assert (Hreach : reachable w).
  { exists two_observers, true, None,
      [OpSetMainMessageLoopQuitClosure 7%nat]. reflexivity. }
  split; [exact Hreach|]. apply (closure_runs_only_after_shutdown w Hreach).
Defined.

Lemma pending_le_1 c w : (pending c w <= 1)%nat.
Proof.
  unfold pending. destruct (quit_main_message_loop_ (browser w)); [|lia].
  destruct (Nat.eqb _ _); lia.
Qed.

Lemma runs_of_closure_run c q w :
  quit_main_message_loop_ (browser w) = q ->
  runs_of c (closure_run q) = pending c w.
Proof.
  intros H. unfold pending. rewrite H. destruct q; [|reflexivity].
  unfold runs_of. simpl. now destruct (Nat.eqb _ _).
Qed.

Lemma runs_of_nil c : runs_of c [] = 0%nat.
Proof. reflexivity. Qed.

(** One operation: what has run plus what is stored grows by at most the
    closure the operation supplies. *)
Lemma supplied_step c op w :
  (runs_of c (trace (final (step op w))) + pending c (final (step op w))
   <= runs_of c (trace w) + pending c w
      + if is_supply_of c op then 1 else 0)%nat.
Proof.
  destruct op; cbn [is_supply_of]; step_eq; branches; simpl; try lia;
    rewrite ?runs_of_app, ?runs_of_cons, ?runs_of_round, ?runs_of_nil; simpl;
    rewrite ?(runs_of_closure_run c _ w eq_refl), ?runs_of_nil;
    unfold pending; simpl;
    repeat match goal with
      | H : quit_main_message_loop_ _ = _ |- _ => rewrite H
      end;
    repeat match goal with
      | H : Nat.eqb _ _ = _ |- _ => rewrite H
      end;
    repeat match goal with
      | |- context [quit_main_message_loop_ (browser ?w)] =>
          destruct (quit_main_message_loop_ (browser w))
      end;
    repeat match goal with
      | |- context [Nat.eqb ?a ?b] => destruct (Nat.eqb a b)
      end;
    try lia.
Qed.

(** X6. A closure is run at most as often as it is supplied: along any
    sequence of operations, the runs of a closure plus its being stored grow
    by no more than the number of [SetMainMessageLoopQuitClosure] calls that
    hand it over.  In an execution of a fresh Browser that supplies it once,
    it runs at most once. *)
Theorem closure_runs_at_most_as_often_as_supplied c ops :
  (forall w,
      (runs_of c (trace (final (run ops w))) + pending c (final (run ops w))
       <= runs_of c (trace w) + pending c w + supplies c ops)%nat)
  /\ (forall observers e u,
        (runs_of c (trace (final (run ops (initial observers e u))))
         <= supplies c ops)%nat).
Proof.
  assert (H : forall w,
             (runs_of c (trace (final (run ops w)))
              + pending c (final (run ops w))
              <= runs_of c (trace w) + pending c w + supplies c ops)%nat).
  { induction ops as [|op rest IH]; intros w.
    - simpl. unfold supplies. simpl. lia.
    - simpl run. rewrite final_bind.
      pose proof (supplied_step c op w) as Hstep.
      unfold supplies in *. simpl filter.
      destruct (step op w) as [[] w1|code w1]; simpl in Hstep.
      + specialize (IH w1).
        destruct (is_supply_of c op); simpl in *; lia.
      + destruct (is_supply_of c op); simpl in *; lia. }
  split; [exact H|].
  intros observers e u. specialize (H (initial observers e u)).
  change (pending c (initial observers e u)) with 0%nat in H.
  change (runs_of c (trace (initial observers e u))) with 0%nat in H.
  lia.
Qed.

(** ** Quit *)

Lemma put_is_quiting_same b :
  put_is_quiting (is_quiting_ b) b = b.
Proof. now destruct b. Qed.

Lemma times_Quit_noop n w :
  is_quiting_ (browser w) = true -> times n Quit w = Returns tt w.
Proof.
  intros H. induction n as [|n IH]; [reflexivity|].
  simpl. unfold bind. now rewrite Quit_eq, H.
Qed.

(** X8. [Quit] leaves [is_quiting_] clear exactly when it was clear and the
    quit was vetoed: by the before-quit round, or, with no window open and
    the Browser not shut down, by the will-quit round.  In every other case
    any number of further [Quit] calls change nothing, so a quit in progress
    is announced to the observers and to the windows once. *)
Theorem Quit_in_progress_absorbs_Quit w :
  exists w1,
    Quit w = Returns tt w1
    /\ (is_quiting_ (browser w1) = false
        <-> is_quiting_ (browser w) = false
            /\ (existsb prevents_before_quit (observers_ (browser w)) = true
                \/ (window_list_empty w = true
                    /\ is_shutdown_ (browser w) = false
                    /\ existsb prevents_will_quit (observers_ (browser w))
                       = true)))
    /\ (is_quiting_ (browser w1) = true ->
        forall n, times (S n) Quit w = Returns tt w1).
Proof.
  rewrite Quit_eq. eexists. split; [reflexivity|]. split.
  - cbv zeta. rewrite NotifyAndShutdown_eq.
    destruct (is_quiting_ (browser w)) eqn:Hq;
      destruct (existsb prevents_before_quit _) eqn:Hb;
      destruct (window_list_empty w) eqn:He;
      destruct (is_shutdown_ (browser w)) eqn:Hs;
      destruct (existsb prevents_will_quit _) eqn:Hw;
      simpl; rewrite ?Hs, ?Hw, ?Hq; simpl; intuition congruence.
  - intros Hq n. simpl. unfold bind. rewrite Quit_eq.
    now apply times_Quit_noop.
Qed.

Lemma Quit_in_progress_absorbs_Quit_witness :
  let w := initial two_observers false None in
  exists w1,
    Quit w = Returns tt w1
    /\ is_quiting_ (browser w1) = true
    /\ times 3 Quit w = Returns tt w1.
Proof.
  intros w.
  destruct (Quit_in_progress_absorbs_Quit w) as (w1 & HQ & _ & Hn).
  exists w1. split; [exact HQ|].
  assert (Hq : is_quiting_ (browser w1) = true).
  { vm_compute in HQ. inversion HQ. reflexivity. }
  split; [exact Hq|]. exact (Hn Hq 2%nat).
Defined.

(** X9. A veto in the before-quit round stops [Quit] there: the round is
    all that happens.  No window is asked to close, no will-quit or OnQuit
    notification is sent, and the Browser is as it was. *)
Theorem vetoed_before_quit_stops_Quit w :
  is_quiting_ (browser w) = false ->
  existsb prevents_before_quit (observers_ (browser w)) = true ->
  exists w1,
    Quit w = Returns tt w1
    /\ browser w1 = browser w
    /\ trace w1
       = trace w ++ round Call.OnBeforeQuit (observers_ (browser w))
    /\ window_list_empty w1 = window_list_empty w
    /\ exit_code_ w1 = exit_code_ w.
Proof.
  intros Hq Hv. rewrite Quit_eq, Hq, Hv. cbv zeta.
  eexists. split; [reflexivity|]. simpl. repeat split.
  rewrite <- Hq. apply put_is_quiting_same.
Qed.

Lemma vetoed_before_quit_stops_Quit_witness :
  let w := initial [mkObserver 1 false false false;
                    mkObserver 2 true false false] true None in
  is_quiting_ (browser w) = false
  /\ existsb prevents_before_quit (observers_ (browser w)) = true
  /\ exists w1,
      Quit w = Returns tt w1
      /\ browser w1 = browser w
      /\ trace w1
         = trace w ++ round Call.OnBeforeQuit (observers_ (browser w))
      /\ window_list_empty w1 = window_list_empty w
      /\ exit_code_ w1 = exit_code_ w.
Proof.
  intros w. do 2 (split; [reflexivity|]).
  apply (vetoed_before_quit_stops_Quit w); reflexivity.
Defined.

(** X10. With no window open and no veto, [Quit] on a Browser that is
    neither quitting nor shut down runs the whole sequence at once: the
    before-quit round, the will-quit round, the OnQuit round, then the
    stored closure if there is one; the Browser ends shut down and holds no
    closure. *)
Theorem Quit_with_no_window_shuts_down w :
  is_quiting_ (browser w) = false ->
  is_shutdown_ (browser w) = false ->
  window_list_empty w = true ->
  existsb prevents_before_quit (observers_ (browser w)) = false ->
  existsb prevents_will_quit (observers_ (browser w)) = false ->
  let observers := observers_ (browser w) in
  exists w1,
    Quit w = Returns tt w1
    /\ trace w1
       = trace w ++ round Call.OnBeforeQuit observers
         ++ round Call.OnWillQuit observers
         ++ round Call.OnQuit observers
         ++ closure_run (quit_main_message_loop_ (browser w))
    /\ is_shutdown_ (browser w1) = true
    /\ is_quiting_ (browser w1) = true
    /\ quit_main_message_loop_ (browser w1) = None.
Proof.
  intros Hq Hs He Hb Hw observers.
  rewrite Quit_eq, Hq, Hb, He. cbv zeta. rewrite NotifyAndShutdown_eq.
  simpl. rewrite Hs, Hw. eexists. split; [reflexivity|].
  simpl. rewrite <- !app_assoc. repeat split.
Qed.

Lemma Quit_with_no_window_shuts_down_witness :
  let w := with_browser (put_quit_main_message_loop (Some 7%nat))
             (initial [mkObserver 1 false false false] true None) in
  let observers := observers_ (browser w) in
  is_quiting_ (browser w) = false
  /\ is_shutdown_ (browser w) = false
  /\ window_list_empty w = true
  /\ existsb prevents_before_quit (observers_ (browser w)) = false
  /\ existsb prevents_will_quit (observers_ (browser w)) = false
  /\ exists w1,
      Quit w = Returns tt w1
      /\ trace w1
         = trace w ++ round Call.OnBeforeQuit observers
           ++ round Call.OnWillQuit observers
           ++ round Call.OnQuit observers
           ++ closure_run (quit_main_message_loop_ (browser w))
      /\ is_shutdown_ (browser w1) = true
      /\ is_quiting_ (browser w1) = true
      /\ quit_main_message_loop_ (browser w1) = None.
Proof.
  intros w observers. do 5 (split; [reflexivity|]).
  apply (Quit_with_no_window_shuts_down w); reflexivity.
Defined.

(** X11. Closing the windows first changes nothing to the outcome: when no
    observer vetoes before-quit, [Quit] with windows open followed by
    [OnWindowAllClosed] leaves the Browser that [Quit] with no window open
    leaves, and the same trace but for the request to close the windows
    after the before-quit round. *)
Theorem Quit_then_all_closed_is_Quit_with_no_window w :
  is_quiting_ (browser w) = false ->
  is_exiting_ (browser w) = false ->
  existsb prevents_before_quit (observers_ (browser w)) = false ->
  exists w1 w2 w3 rest,
    Quit (with_window_list_empty false w) = Returns tt w1
    /\ OnWindowAllClosed w1 = Returns tt w2
    /\ Quit (with_window_list_empty true w) = Returns tt w3
    /\ browser w2 = browser w3
    /\ trace w2
       = trace w ++ round Call.OnBeforeQuit (observers_ (browser w))
         ++ CloseAllWindows :: rest
    /\ trace w3
       = trace w ++ round Call.OnBeforeQuit (observers_ (browser w)) ++ rest.
Proof.
  intros Hq He Hb.
  rewrite !Quit_eq. simpl. rewrite Hq, Hb. cbv zeta.
  destruct (is_shutdown_ (browser w)) eqn:Hs;
    [|destruct (existsb prevents_will_quit (observers_ (browser w))) eqn:Hw];
    do 4 eexists;
    (split; [reflexivity|]);
    (split; [rewrite OnWindowAllClosed_eq; simpl; rewrite He;
             rewrite NotifyAndShutdown_eq; simpl; rewrite Hs, ?Hw;
             reflexivity|]);
    (split; [rewrite NotifyAndShutdown_eq; simpl; rewrite Hs, ?Hw;
             reflexivity|]);
    (split; [reflexivity|]);
    simpl; rewrite <- ?app_assoc; simpl; split; try reflexivity.
  now rewrite app_nil_r.
Qed.

Lemma Quit_then_all_closed_is_Quit_with_no_window_witness :
  let w := initial two_observers false None in
  is_quiting_ (browser w) = false
  /\ is_exiting_ (browser w) = false
  /\ existsb prevents_before_quit (observers_ (browser w)) = false
  /\ exists w1 w2 w3 rest,
      Quit (with_window_list_empty false w) = Returns tt w1
      /\ OnWindowAllClosed w1 = Returns tt w2
      /\ Quit (with_window_list_empty true w) = Returns tt w3
      /\ browser w2 = browser w3
      /\ trace w2
         = trace w ++ round Call.OnBeforeQuit (observers_ (browser w))
           ++ CloseAllWindows :: rest
      /\ trace w3
         = trace w ++ round Call.OnBeforeQuit (observers_ (browser w))
           ++ rest.
Proof.
  intros w. do 3 (split; [reflexivity|]).
  apply (Quit_then_all_closed_is_Quit_with_no_window w); reflexivity.
Defined.

(** ** Exit with the main message loop running *)

(** X12. [Exit] asks no observer: with the loop running it sends neither a
    before-quit nor a will-quit notification, whatever the observers would
    answer.  With a window open it only requests that all windows be
    destroyed and leaves the Browser quitting and exiting; with none, and the
    Browser not shut down, it goes straight to the OnQuit round and the
    stored closure. *)
Theorem Exit_asks_no_observer w args :
  exit_code_ w <> None ->
  exists w1,
    Exit args w = Returns tt w1
    /\ is_quiting_ (browser w1) = true
    /\ is_exiting_ (browser w1) = true
    /\ (window_list_empty w = false ->
        trace w1 = trace w ++ [DestroyAllWindows]
        /\ is_shutdown_ (browser w1) = is_shutdown_ (browser w))
    /\ (window_list_empty w = true ->
        is_shutdown_ (browser w1) = true
        /\ (is_shutdown_ (browser w) = false ->
            trace w1
            = trace w ++ round Call.OnQuit (observers_ (browser w))
              ++ closure_run (quit_main_message_loop_ (browser w)))
        /\ (is_shutdown_ (browser w) = true -> trace w1 = trace w)).
Proof.
  intros Hc. rewrite Exit_eq. destruct (exit_code_ w); [|congruence].
  cbv zeta. rewrite Shutdown_eq. simpl.
  destruct (window_list_empty w); destruct (is_shutdown_ (browser w)) eqn:Hs;
    eexists; (split; [reflexivity|]); simpl; rewrite ?Hs;
    repeat split; trivial; try discriminate.
Qed.

Lemma Exit_asks_no_observer_witness :
  let w := with_exit_code (Some 0)
             (initial [mkObserver 1 true true false] true None) in
  exit_code_ w <> None
  /\ exists w1,
      Exit (Some 3) w = Returns tt w1
      /\ is_quiting_ (browser w1) = true
      /\ is_exiting_ (browser w1) = true
      /\ (window_list_empty w = false ->
          trace w1 = trace w ++ [DestroyAllWindows]
          /\ is_shutdown_ (browser w1) = is_shutdown_ (browser w))
      /\ (window_list_empty w = true ->
          is_shutdown_ (browser w1) = true
          /\ (is_shutdown_ (browser w) = false ->
              trace w1
              = trace w ++ round Call.OnQuit (observers_ (browser w))
                ++ closure_run (quit_main_message_loop_ (browser w)))
          /\ (is_shutdown_ (browser w) = true -> trace w1 = trace w)).
Proof.
  intros w. split; [discriminate|].
  apply (Exit_asks_no_observer w (Some 3)). discriminate.
Defined.

(** ** The ready promise along an execution *)

Lemma single_promise_invariant_step op w :
  single_promise_invariant w -> single_promise_invariant (final (step op w)).
Proof.
  intros Hinv.
  destruct op; step_eq; branches; try exact Hinv;
    unfold single_promise_invariant in *; simpl in *;
    destruct Hinv as [[Hp Hr]|[Hp Hr]]; try congruence;
    rewrite ?Hp; simpl; auto;
    try (assert (p = 0%nat) by congruence; subst p);
    repeat match goal with
      | E : is_ready_ _ = _ |- _ => rewrite E
      end;
    simpl; auto.
Qed.

(** X13. In every world of an execution the Browser has allocated at most
    one promise: none while [ready_promise_] is empty, else the one
    [ready_promise_] holds; and that promise is resolved exactly when
    [is_ready_] is set, so never before [DidFinishLaunching]. *)
Theorem ready_promise_is_single_and_tracks_ready w :
  reachable w ->
  (List.length (promises w) <= 1)%nat
  /\ (ready_promise_ (browser w) = None -> promises w = [])
  /\ (forall p,
        ready_promise_ (browser w) = Some p ->
        List.length (promises w) = 1%nat
        /\ handle_resolved w p = is_ready_ (browser w)).
Proof.
  intros Hreach.
  assert (Hinv : single_promise_invariant w).
  { revert w Hreach. apply reachable_keeps.
    - intros. now left.
    - apply single_promise_invariant_step. }
  destruct Hinv as [[Hp Hr]|[Hp Hr]]; rewrite Hr.
  - rewrite Hp. simpl. split; [lia|]. split; [reflexivity|].
    intros p Hsome. discriminate Hsome.
  - split; [rewrite Hp; simpl; lia|]. split; [discriminate|].
    intros p Hsome. inversion Hsome. subst p.
    unfold handle_resolved. rewrite Hp. simpl.
    split; [reflexivity|]. now destruct (is_ready_ (browser w)).
Qed.

Lemma ready_promise_is_single_and_tracks_ready_witness :
  let w := mkWorld (mkBrowser false false false false 0 two_observers None
                      (Some 0%nat))
             true None None [Pending] [] in
  reachable w
  /\ (List.length (promises w) <= 1)%nat
  /\ (ready_promise_ (browser w) = None -> promises w = [])
  /\ (forall p,
        ready_promise_ (browser w) = Some p ->
        List.length (promises w) = 1%nat
        /\ handle_resolved w p = is_ready_ (browser w)).
Proof.
  intros w.
  assert (Hreach : reachable w).
  { exists two_observers, true, None, [OpWhenReady 5%nat]. reflexivity. }
  split; [exact Hreach|].
  apply (ready_promise_is_single_and_tracks_ready w Hreach).
Defined.

(** X14. [WhenReady] is idempotent: a second call, on whatever isolate,
    returns the handle the first call returned and changes nothing; the
    first call changes nothing but the promise heap and [ready_promise_]. *)
Theorem WhenReady_returns_the_same_handle w isolate isolate' :
  exists h w1,
    WhenReady isolate w = Returns h w1
    /\ WhenReady isolate' w1 = Returns h w1
    /\ trace w1 = trace w
    /\ put_ready_promise (ready_promise_ (browser w)) (browser w1)
       = browser w
    /\ (ready_promise_ (browser w) = None \/ w1 = w).
Proof.
  rewrite WhenReady_eq.
  destruct (ready_promise_ (browser w)) as [p|] eqn:Hp.
  - exists p, w. rewrite WhenReady_eq, Hp. repeat split; [|now right].
    rewrite <- Hp. now destruct (browser w).
  - eexists. eexists. split; [reflexivity|]. cbv zeta.
    rewrite WhenReady_eq. simpl. repeat split; [|now left].
    rewrite <- Hp. now destruct (browser w).
Qed.

(** X15. A handle handed out by [WhenReady] before the Browser is ready is
    resolved by the [DidFinishLaunching] that follows, whatever operations
    come in between. *)
Theorem early_handle_is_resolved_at_launch isolate launch_info ops w h
  w1 w2 w3 :
  reachable w ->
  WhenReady isolate w = Returns h w1 ->
  run ops w1 = Returns tt w2 ->
  DidFinishLaunching launch_info w2 = Returns tt w3 ->
  handle_resolved w3 h = true
  /\ ready_promise_ (browser w3) = Some h.
Proof.
  intros Hreach Hw Hrun Hd.
  split; [eapply WhenReady_then_launch; eauto|].
  pose proof (WhenReady_returns_ready_promise _ _ _ _ Hw) as Hp1.
  pose proof (ready_promise_run _ _ _ _ Hp1 Hrun) as Hp2.
  rewrite DidFinishLaunching_eq in Hd. inversion Hd. exact Hp2.
Qed.

Lemma early_handle_is_resolved_at_launch_witness :
  let w := initial two_observers true None in
  let w1 := mkWorld (mkBrowser false false false false 0 two_observers None
                       (Some 0%nat))
              true None None [Pending] [] in
  let w2 := with_trace (fun _ => [Notify 1 (Call.OnActivate true);
                                  Notify 2 (Call.OnActivate true)]) w1 in
  let w3 := mkWorld (mkBrowser false false false true 0 two_observers None
                       (Some 0%nat))
              true None None [Resolved]
              [Notify 1 (Call.OnActivate true);
               Notify 2 (Call.OnActivate true);
               Notify 1 (Call.OnFinishLaunching []);
               Notify 2 (Call.OnFinishLaunching [])] in
  reachable w
  /\ WhenReady 5%nat w = Returns 0%nat w1
  /\ run [OpActivate true] w1 = Returns tt w2
  /\ DidFinishLaunching [] w2 = Returns tt w3
  /\ handle_resolved w3 0%nat = true
  /\ ready_promise_ (browser w3) = Some 0%nat.
Proof.
  intros w w1 w2 w3.
  assert (Hreach : reachable w).
  { exists two_observers, true, None, []. reflexivity. }
  split; [exact Hreach|]. do 3 (split; [reflexivity|]).
  apply (early_handle_is_resolved_at_launch 5%nat [] [OpActivate true]
           w 0%nat w1 w2 w3 Hreach); reflexivity.
Defined.

(** ** Supplying the quit closure again *)

(** X16. Before shutdown a second closure replaces the first as if the
    first had never been supplied: the two calls leave the world that the
    second call alone leaves, so only the last closure supplied is run by
    [Shutdown].  After shutdown both closures are run, in the order
    supplied. *)
Theorem last_supplied_closure_wins w c1 c2 :
  (is_shutdown_ (browser w) = false ->
   run [OpSetMainMessageLoopQuitClosure c1;
        OpSetMainMessageLoopQuitClosure c2] w
   = SetMainMessageLoopQuitClosure c2 w
   /\ exists w1 w2,
       SetMainMessageLoopQuitClosure c2 w = Returns tt w1
       /\ Shutdown w1 = Returns tt w2
       /\ trace w2
          = trace w ++ round Call.OnQuit (observers_ (browser w))
            ++ [RunClosure c2])
  /\ (is_shutdown_ (browser w) = true ->
      run [OpSetMainMessageLoopQuitClosure c1;
           OpSetMainMessageLoopQuitClosure c2] w
      = Returns tt (log [RunClosure c1; RunClosure c2] w)).
Proof.
  split; intros Hs; simpl run; unfold bind;
    rewrite !SetMainMessageLoopQuitClosure_eq, Hs; simpl; rewrite Hs.
  - split; [reflexivity|]. do 2 eexists. split; [reflexivity|].
    rewrite Shutdown_eq. simpl. rewrite Hs. split; reflexivity.
  - unfold ret. now rewrite log_log.
Qed.

Lemma last_supplied_closure_wins_witness :
  let w := initial two_observers true None in
  is_shutdown_ (browser w) = false
  /\ run [OpSetMainMessageLoopQuitClosure 1%nat;
          OpSetMainMessageLoopQuitClosure 2%nat] w
     = SetMainMessageLoopQuitClosure 2%nat w
  /\ exists w1 w2,
      SetMainMessageLoopQuitClosure 2%nat w = Returns tt w1
      /\ Shutdown w1 = Returns tt w2
      /\ trace w2
         = trace w ++ round Call.OnQuit (observers_ (browser w))
           ++ [RunClosure 2%nat].
Proof.
  intros w. split; [reflexivity|].
  apply (proj1 (last_supplied_closure_wins w 1%nat 2%nat)). reflexivity.
Defined.

(** ** The other notifications *)

(** X17. [WillFinishLaunching], [OnAccessibilitySupportChanged],
    [RequestLogin], [PreMainMessageLoopRun] and [NewWindowForTab] each
    notify every registered observer once, in registration order, and change
    nothing else: the Browser, the window list, the exit-code slot and the
    promises are as before. *)
Theorem plain_notifications_frame w login_handler request_details :
  let observers := observers_ (browser w) in
  let only_sends (m : M unit) (c : Call.t) :=
    exists w',
      m w = Returns tt w'
      /\ trace w' = trace w ++ map (fun o => Notify (observer_id o) c) observers
      /\ browser w' = browser w
      /\ window_list_empty w' = window_list_empty w
      /\ exit_code_ w' = exit_code_ w
      /\ promises w' = promises w in
  only_sends WillFinishLaunching Call.OnWillFinishLaunching
  /\ only_sends OnAccessibilitySupportChanged
       Call.OnAccessibilitySupportChanged
  /\ only_sends (RequestLogin login_handler request_details)
       (Call.OnLogin login_handler request_details)
  /\ only_sends PreMainMessageLoopRun Call.OnPreMainMessageLoopRun
  /\ only_sends NewWindowForTab Call.OnNewWindowForTab.
Proof.
  intros observers only_sends. unfold only_sends.
  rewrite WillFinishLaunching_eq, OnAccessibilitySupportChanged_eq,
    RequestLogin_eq, PreMainMessageLoopRun_eq, NewWindowForTab_eq.
  repeat split; eexists; repeat split.
Qed.

(** ** Application name and version *)

#[export] Instance Overrides_laws : ApplicationInfoLaws Overrides.
Proof. split; reflexivity. Qed.

(** X18. [GetVersion] after [SetVersion] returns the version set, except
    that setting the empty string falls back to the executable's file
    version; the same holds of [GetName] and [SetName] with the product
    name.  Neither setter changes what the other getter returns, and a
    getter returns the empty string only if the executable's own value is
    empty. *)
Theorem version_and_name_fall_back_when_empty {S} {info : ApplicationInfo S}
  {laws : ApplicationInfoLaws S} (s : S) (version name : string) :
  GetVersion (SetVersion version s)
  = (if empty version then GetExecutableFileVersion s else version)
  /\ GetName (SetName name s)
     = (if empty name then GetExecutableFileProductName s else name)
  /\ GetVersion (SetName name s) = GetVersion s
  /\ GetName (SetVersion version s) = GetName s
  /\ (empty (GetVersion s) = true -> empty (GetExecutableFileVersion s) = true)
  /\ (empty (GetName s) = true ->
      empty (GetExecutableFileProductName s) = true).
Proof.
  unfold GetVersion, SetVersion, GetName, SetName.
  rewrite version_overridden, name_overridden, version_keeps_file_version,
    name_keeps_product_name, name_keeps_version, name_keeps_file_version,
    version_keeps_name, version_keeps_product_name.
  repeat split.
  - destruct (empty (GetOverriddenApplicationVersion s)) eqn:H; congruence.
  - destruct (empty (GetOverriddenApplicationName s)) eqn:H; congruence.
Qed.

Lemma version_and_name_fall_back_when_empty_witness :
  let s := mkOverrides EmptyString EmptyString "Electron" "7.0.0" in
  GetVersion (SetVersion EmptyString (SetVersion "1.2.3" s)) = "7.0.0"%string
  /\ GetVersion (SetVersion "1.2.3" s) = "1.2.3"%string
  /\ GetName (SetName EmptyString s) = "Electron"%string.
Proof.
  intros s.
  pose proof (version_and_name_fall_back_when_empty
                (SetVersion "1.2.3" s) EmptyString EmptyString)
    as (H1 & H2 & _).
  pose proof (version_and_name_fall_back_when_empty s "1.2.3" EmptyString)
    as (H3 & H4 & _).
  split; [exact H1|]. split; [exact H3|exact H4].
Defined.
